(** * pg-mcp: the SQL validator and the host tool facade

    A shallow embedding of
      - [src/pg_mcp/services/sql_validator.py] (class [SQLValidator]),
      - the [query] tool and [lifespan] in [src/pg_mcp/server.py],
      - [main] in [src/pg_mcp/__main__.py],
    together with the properties the specification states about them.

    The SQL parser and generator (the sqlglot library) are not part of the
    repository: they are parameters of the development.  The syntax tree
    they produce is modelled as a rose tree carrying, for each node, the
    attributes the validator reads ([this], [name], [table], [key]). *)

From Stdlib Require Import Strings.Byte List ZArith NArith Lia Bool Permutation.
From stdpp Require Import base gmap sets list sorting.

(** ** Python [str]

    A [str] is a sequence of Unicode code points. A literal written
    between double quotes stands for the code points of its characters,
    which are ASCII characters; any other text is written as the list of
    its code points. *)
Abbreviation str := (list N).

Definition code_points : Type := str.

Inductive literal : Type :=
| literal_nil
| literal_cons (c : N) (r : literal).

Fixpoint literal_of_bytes (l : list byte) : option literal :=
  match l with
  | [] => Some literal_nil
  | b :: r =>
      match literal_of_bytes r with
      | Some s =>
          if (Byte.to_N b <? 128)%N then Some (literal_cons (Byte.to_N b) s)
          else None
      | None => None
      end
  end.

Fixpoint bytes_of_literal (s : literal) : option (list byte) :=
  match s with
  | literal_nil => Some []
  | literal_cons c r =>
      match Byte.of_N c, bytes_of_literal r with
      | Some b, Some l => if (c <? 128)%N then Some (b :: l) else None
      | _, _ => None
      end
  end.

Declare Scope str_scope.
Delimit Scope str_scope with str.
#[warnings="-via-type-mismatch,-via-type-remapping"]
String Notation code_points literal_of_bytes bytes_of_literal
  (via literal mapping [[nil] => literal_nil, [cons] => literal_cons])
  : str_scope.
Local Open Scope str_scope.

Module PyStr.

(** A [str] all of whose code points are below 128. *)
Definition is_ascii (s : str) : bool := forallb (λ c, c <? 128)%N s.

Definition is_upper (c : N) : bool := (65 <=? c)%N && (c <=? 90)%N.
Definition is_lower (c : N) : bool := (97 <=? c)%N && (c <=? 122)%N.

Definition lower_char (c : N) : N := if is_upper c then (c + 32)%N else c.
Definition upper_char (c : N) : N := if is_lower c then (c - 32)%N else c.

(** The case mappings of the interpreter for a [str] that is not ASCII:
    they follow the Unicode tables (which map the Kelvin sign U+212A to
    [k], and may change the length of the text), and are not part of the
    sources. *)
Class Unicode : Type := {
  unicode_lower : str -> str;
  unicode_upper : str -> str
}.

Section Case.

Context {U : Unicode}.

(** [s.lower()] and [s.upper()]: letter by letter on an ASCII [str],
    by the Unicode tables on any other. *)
Definition lower (s : str) : str :=
  if is_ascii s then lower_char <$> s else unicode_lower s.
Definition upper (s : str) : str :=
  if is_ascii s then upper_char <$> s else unicode_upper s.

End Case.

(** [c.isspace()], the white space that [strip()] removes: the ASCII
    white space (tab to carriage return, the four separators 28..31 and
    the space) and the Unicode white space (next line U+0085, no-break
    space U+00A0, U+1680, U+2000..U+200A, U+2028, U+2029, U+202F, U+205F
    and U+3000). *)
Definition isspace (c : N) : bool :=
  ((9 <=? c)%N && (c <=? 13)%N) || ((28 <=? c)%N && (c <=? 32)%N)
  || (c =? 133)%N || (c =? 160)%N || (c =? 5760)%N
  || ((8192 <=? c)%N && (c <=? 8202)%N)
  || (c =? 8232)%N || (c =? 8233)%N || (c =? 8239)%N || (c =? 8287)%N
  || (c =? 12288)%N.

Fixpoint lstrip (s : str) : str :=
  match s with
  | [] => []
  | c :: r => if isspace c then lstrip r else s
  end.

(** [rstrip] drops the trailing white space: a character is kept when it
    is not white space or when something is kept after it. *)
Fixpoint rstrip (s : str) : str :=
  match s with
  | [] => []
  | c :: r =>
      match rstrip r with
      | [] => if isspace c then [] else [c]
      | kept => c :: kept
      end
  end.

(** [s.strip()] *)
Definition strip (s : str) : str := rstrip (lstrip s).

(** Truth value of a string: [bool(s)] *)
Definition truthy (s : str) : bool :=
  match s with [] => false | _ => true end.

(** [hay.startswith(needle)] *)
Fixpoint startswith (needle hay : str) : bool :=
  match needle, hay with
  | [], _ => true
  | _ :: _, [] => false
  | a :: n, b :: h => (a =? b)%N && startswith n h
  end.

(** [needle in hay] for two strings: substring test. *)
Fixpoint contains (needle hay : str) : bool :=
  if startswith needle hay then true
  else match hay with
       | [] => false
       | _ :: r => contains needle r
       end.

(** [s <= t]: the order of [sorted], code point by code point. *)
Fixpoint leb (s t : str) : bool :=
  match s, t with
  | [], _ => true
  | _ :: _, [] => false
  | a :: s', b :: t' => (a <? b)%N || ((a =? b)%N && leb s' t')
  end.

Definition le (s t : str) : Prop := leb s t = true.

Global Instance le_dec (s t : str) : Decision (le s t).
Proof. unfold le. apply _. Defined.

End PyStr.

(** ** Exceptions and results *)

Inductive Exception : Type :=
| SQLParseError (msg : str)            (* pg_mcp.models.errors *)
| SecurityViolationError (msg : str)   (* pg_mcp.models.errors *)
| ParserException (msg : str).         (* raised by the parser library *)

Inductive Result (A : Type) : Type :=
| Ok (a : A)
| Raise (e : Exception).
Arguments Ok {A} a.
Arguments Raise {A} e.

(** Sequencing: an exception skips what follows. The notations
    [x ← c; k] and [c ;; k] are those of the monad classes. *)
Global Instance Result_ret : MRet Result := fun _ a => Ok a.
Global Instance Result_bind : MBind Result := fun _ _ k r =>
  match r with
  | Ok a => k a
  | Raise e => Raise e
  end.

(** [isinstance(e, SecurityViolationError)] *)
Definition is_security (e : Exception) : Prop :=
  ∃ msg, e = SecurityViolationError msg.

(** [str(e)] of an exception: its message. *)
Definition exn_str (e : Exception) : str :=
  match e with
  | SQLParseError m | SecurityViolationError m | ParserException m => m
  end.

(** A [for] loop whose body may raise: the first exception ends the loop. *)
Fixpoint for_each {A} (body : A -> Result unit) (l : list A) : Result unit :=
  match l with
  | [] => Ok tt
  | x :: r => body x ;; for_each body r
  end.

(** ** The syntax tree of the parser library *)
Module exp.

(** The expression classes the validator tests with [isinstance], the
    classes the parser gives to the statements the specification names,
    and every other class under its key. [Func cname] stands for any class
    deriving from [exp.Func] ([Anonymous], [Count], ...). *)
Inductive ExpClass : Type :=
| Command | Select | Union | Subquery | With
| Insert | Update | Delete | Create | Drop | Alter | Grant | Revoke
| TruncateTable | Copy
| Table | Column
| Func (cname : str)
| Other (cname : str).

Global Instance ExpClass_eq_dec : EqDecision ExpClass.
Proof. solve_decision. Defined.

#[warnings="-register-all"]
Inductive Expression : Type :=
  Node { cls : ExpClass;
         this : str;    (* [str(self.this)], empty when [this] is falsy *)
         name : str;    (* [self.name] *)
         table : str;   (* [self.table], empty when there is none *)
         args : list Expression }.

(** [self.key]: the lower-cased class name. *)
Definition key {U : PyStr.Unicode} (e : Expression) : str :=
  match cls e with
  | Command => "command" | Select => "select" | Union => "union"
  | Subquery => "subquery" | With => "with"
  | Insert => "insert" | Update => "update" | Delete => "delete"
  | Create => "create" | Drop => "drop" | Alter => "alter"
  | Grant => "grant" | Revoke => "revoke"
  | TruncateTable => "truncatetable" | Copy => "copy"
  | Table => "table" | Column => "column"
  | Func cname => PyStr.lower cname
  | Other cname => PyStr.lower cname
  end.

(** [isinstance(e, (C1, ..., Cn))] for the classes without subclasses. *)
Definition isinstance (e : Expression) (classes : list ExpClass) : bool :=
  bool_decide (cls e ∈ classes).

(** [isinstance(e, exp.Func)] *)
Definition is_func (e : Expression) : bool :=
  match cls e with Func _ => true | _ => false end.

(** Number of nodes of a tree. *)
Fixpoint size (e : Expression) : nat :=
  match e with
  | Node _ _ _ _ children =>
      S ((fix sizes (l : list Expression) : nat :=
            match l with
            | [] => 0
            | c :: r => size c + sizes r
            end) children)
  end.

(** The breadth-first traversal behind [walk()]: a queue, the node at its
    head is yielded and its children are appended at the end. *)
Fixpoint bfs (fuel : nat) (queue : list Expression) : list Expression :=
  match fuel with
  | O => []
  | S fuel' =>
      match queue with
      | [] => []
      | n :: rest => n :: bfs fuel' (rest ++ args n)
      end
  end.

(** [e.walk()] *)
Definition walk (e : Expression) : list Expression := bfs (size e) [e].

(** [e.find_all(C)]: the nodes of [walk()] that are instances of [C]. *)
Definition find_all (c : ExpClass) (e : Expression) : list Expression :=
  List.filter (fun n => isinstance n [c]) (walk e).

End exp.

(** ** Configuration *)

(** [pg_mcp.config.settings.ExplainPolicy] *)
Inductive ExplainPolicy : Type := DISABLED | EXPLAIN_ONLY | EXPLAIN_ANALYZE.

Global Instance ExplainPolicy_eq_dec : EqDecision ExplainPolicy.
Proof. solve_decision. Defined.

(** Modelled from the spec: [SecurityConfig] of [pg_mcp.config.settings],
    with the fields the validator and the server read. *)
Record SecurityConfig : Type := {
  cfg_explain_policy : ExplainPolicy;
  cfg_blocked_tables : list str;
  cfg_blocked_columns : list str;
  cfg_blocked_functions : list str
}.

(** ** The validator: [class SQLValidator] *)
Module SQLValidator.

Record t : Type := {
  config : SecurityConfig;
  blocked_tables : gset str;
  blocked_columns : gset str;
  explain_policy : ExplainPolicy;
  blocked_functions : gset str
}.

Section WithUnicode.

Context {U : PyStr.Unicode}.

(** [{x.lower() for x in (entries or [])}] *)
Definition lowered (entries : option (list str)) : gset str :=
  list_to_set (PyStr.lower <$> default [] entries).

(** [__init__] *)
Definition init (cfg : SecurityConfig)
    (tables columns : option (list str))
    (policy : ExplainPolicy) : t :=
  {| config := cfg;
     blocked_tables := lowered tables;
     blocked_columns := lowered columns;
     explain_policy := policy;
     blocked_functions := lowered (Some (cfg_blocked_functions cfg)) |}.

Definition forbidden_types : list exp.ExpClass :=
  [exp.Insert; exp.Update; exp.Delete; exp.Create;
   exp.Drop; exp.Alter; exp.Grant; exp.Revoke].

Definition allowed_types : list exp.ExpClass :=
  [exp.Select; exp.Union; exp.Subquery].

Definition security (msg : str) : Result unit :=
  Raise (SecurityViolationError msg).

(** [_check_statement_type]. The branch on [exp.With] of the source is
    a [pass] and falls through to the tests that follow it. *)
Definition _check_statement_type (self : t)
    (statement : exp.Expression) (sql : str) : Result unit :=
  if exp.isinstance statement [exp.Command] then
    let cmd_name :=
      if PyStr.truthy (exp.this statement)
      then PyStr.upper (exp.this statement) else "" in
    if bool_decide (cmd_name = "EXPLAIN") then
      if bool_decide (explain_policy self = DISABLED) then
        security "EXPLAIN statements are not allowed"
      else if bool_decide (explain_policy self = EXPLAIN_ONLY)
              && PyStr.contains "ANALYZE" (PyStr.upper sql) then
        security "EXPLAIN ANALYZE is not allowed"
      else Ok tt
    else security ("Command '" ++ cmd_name ++ "' is not allowed")
  else if exp.isinstance statement [exp.Select] then Ok tt
  else if exp.isinstance statement [exp.Union] then Ok tt
  else if exp.isinstance statement forbidden_types then
    security ("Statement type '" ++ PyStr.upper (exp.key statement)
              ++ "' is not allowed")
  else if negb (exp.isinstance statement allowed_types) then
    let key := PyStr.upper (exp.key statement) in
    if negb (bool_decide (key ∈ ["SELECT"; "UNION"])) then
      security ("Statement type '" ++ key ++ "' is not allowed")
    else Ok tt
  else Ok tt.

(** [_check_blocked_functions] *)
Definition _check_blocked_functions (self : t)
    (statement : exp.Expression) : Result unit :=
  for_each (fun node =>
    if exp.is_func node then
      let func_name := PyStr.lower (exp.name node) in
      if bool_decide (func_name ∈ blocked_functions self) then
        security ("Function '" ++ func_name ++ "' is not allowed")
      else Ok tt
    else Ok tt) (exp.walk statement).

(** [_check_blocked_tables] *)
Definition _check_blocked_tables (self : t)
    (statement : exp.Expression) : Result unit :=
  if bool_decide (blocked_tables self = ∅) then Ok tt
  else
    for_each (fun table =>
      let table_name := PyStr.lower (exp.name table) in
      if bool_decide (table_name ∈ blocked_tables self) then
        security ("Access to table '" ++ table_name ++ "' is blocked")
      else Ok tt) (exp.find_all exp.Table statement).

(** The body of the loop of [_check_blocked_columns]. *)
Definition check_column (self : t) (column : exp.Expression) : Result unit :=
  let col_name := PyStr.lower (exp.name column) in
  let table_name :=
    if PyStr.truthy (exp.table column)
    then Some (PyStr.lower (exp.table column)) else None in
  if bool_decide (col_name ∈ blocked_columns self) then
    security ("Access to column '" ++ col_name ++ "' is blocked")
  else
    match table_name with
    | Some table_name =>
        if PyStr.truthy table_name then
          let qualified_name := table_name ++ "." ++ col_name in
          if bool_decide (qualified_name ∈ blocked_columns self) then
            security ("Access to column '" ++ qualified_name ++ "' is blocked")
          else Ok tt
        else Ok tt
    | None => Ok tt
    end.

(** [_check_blocked_columns] *)
Definition _check_blocked_columns (self : t)
    (statement : exp.Expression) : Result unit :=
  if bool_decide (blocked_columns self = ∅) then Ok tt
  else for_each (check_column self) (exp.find_all exp.Column statement).

(** Steps 2 to 5 of [validate_or_raise]: the four checks in order. *)
Definition checks (self : t) (statement : exp.Expression) (sql : str)
    : Result unit :=
  _check_statement_type self statement sql ;;
  _check_blocked_functions self statement ;;
  _check_blocked_tables self statement ;;
  _check_blocked_columns self statement.

Section WithParser.

(** The parser library: [parse_one(sql)], [sqlglot.parse(sql)] and the
    generator [expression.sql()]. Each may raise. *)
Variable parse_one : str -> Result exp.Expression.
Variable parse : str -> Result (list (option exp.Expression)).
Variable to_sql : exp.Expression -> Result str.

(** [validate_or_raise]. The call of [parse_one] is guarded by a
    [try]; the call of [sqlglot.parse] is not. *)
Definition validate_or_raise (self : t) (sql : str) : Result unit :=
  if negb (PyStr.truthy sql) || negb (PyStr.truthy (PyStr.strip sql)) then
    Raise (SQLParseError "SQL query is empty")
  else
    match parse_one sql with
    | Raise e =>
        Raise (SQLParseError ("Failed to parse SQL: " ++ exn_str e))
    | Ok statement =>
        parsed ← parse sql;
        if bool_decide (1 < length parsed) then
          security "Multiple SQL statements are not allowed"
        else
          _check_statement_type self statement sql ;;
          _check_blocked_functions self statement ;;
          _check_blocked_tables self statement ;;
          _check_blocked_columns self statement
    end.

(** [validate]: the two validator exceptions become [(False, str(e))],
    any other exception is not caught. *)
Definition validate (self : t) (sql : str)
    : Result (bool * option str) :=
  match validate_or_raise self sql with
  | Ok _ => Ok (true, None)
  | Raise (SecurityViolationError m) => Ok (false, Some m)
  | Raise (SQLParseError m) => Ok (false, Some m)
  | Raise e => Raise e
  end.

(** [normalize_sql] *)
Definition normalize_sql (sql : str) : Result str :=
  match parse_one sql ≫= to_sql with
  | Ok text => Ok text
  | Raise e =>
      Raise (SQLParseError ("Failed to normalize SQL: " ++ exn_str e))
  end.

(** [extract_tables]: the names go through a set, then [sorted]. *)
Definition extract_tables (sql : str) : Result (list str) :=
  match parse_one sql with
  | Ok statement =>
      let tables : gset str :=
        list_to_set (exp.name <$> exp.find_all exp.Table statement) in
      Ok (merge_sort PyStr.le (elements tables))
  | Raise e =>
      Raise (SQLParseError ("Failed to extract tables: " ++ exn_str e))
  end.

End WithParser.

End WithUnicode.

End SQLValidator.

(** ** The server: [server.py] *)
Module Server.

(** A raised Python exception: whether it is an instance of [Exception]
    (what [except Exception] catches) or only of [BaseException], as
    [asyncio.CancelledError], [KeyboardInterrupt] and [SystemExit] are;
    and [str(e)]. *)
Record PyExn : Type := {
  is_Exception : bool;
  exn_text : str
}.

Inductive Outcome (A : Type) : Type :=
| Returns (a : A)
| Raises (e : PyExn).
Arguments Returns {A} a.
Arguments Raises {A} e.

Global Instance Outcome_ret : MRet Outcome := fun _ a => Returns a.
Global Instance Outcome_bind : MBind Outcome := fun _ _ k r =>
  match r with
  | Returns a => k a
  | Raises e => Raises e
  end.

(** The values the tool puts in its answer: [dict[str, Any]]. A dict
    literal is the list of its items. *)
#[warnings="-register-all"]
Inductive PyValue : Type :=
| PyNone
| PyBool (b : bool)
| PyInt (z : Z)
| PyStr (s : str)
| PyList (items : list PyValue)
| PyDict (items : list (str * PyValue)).

(** [d[k]] on a dict value *)
Definition item (k : str) (d : PyValue) : option PyValue :=
  match d with
  | PyDict items => snd <$> List.find (fun kv => bool_decide (fst kv = k)) items
  | _ => None
  end.

(** The shape of the three error answers of [query]. *)
Definition failure (code message : str) (details : PyValue) : PyValue :=
  PyDict [("success", PyBool false);
          ("error", PyDict [("code", PyStr code);
                            ("message", PyStr message);
                            ("details", details)])].

(** [d["success"]] and [d["error"]["code"]] of an answer. *)
Definition success (d : PyValue) : option bool :=
  match item "success" d with
  | Some (PyBool b) => Some b
  | _ => None
  end.

Definition error_code (d : PyValue) : option str :=
  match item "error" d ≫= item "code" with
  | Some (PyStr code) => Some code
  | _ => None
  end.

(** An answer whose [error] is populated: a dict with the keys [code],
    [message] and [details], the first two being strings. *)
Definition error_populated (d : PyValue) : Prop :=
  ∃ code message details,
    item "error" d = Some (PyDict [("code", PyStr code);
                                   ("message", PyStr message);
                                   ("details", details)]).

(** Modelled from the spec: the enum [ReturnType] of
    [pg_mcp.models.query], with the values "sql" and "result";
    [ReturnType(value)] raises a [ValueError] on any other value. *)
Inductive ReturnType : Type := SQL_ONLY | RESULT.

Definition ReturnType_of (value : str) : Outcome ReturnType :=
  if bool_decide (value = "sql") then Returns SQL_ONLY
  else if bool_decide (value = "result") then Returns RESULT
  else Raises {| is_Exception := true;
                 exn_text := "'" ++ value ++ "' is not a valid ReturnType" |}.

Section Tool.

(** The collaborators of the tool, none of them among the sources:
    the request and response models, the tracing context and the
    orchestrator. Each call may raise. *)
Variable QueryRequest : Type.
Variable QueryResponse : Type.
(** [QueryRequest(question=..., database=..., return_type=...)] *)
Variable new_request :
  str -> option str -> ReturnType -> Outcome QueryRequest.
(** [hasattr(request, "request_id")] and [setattr] *)
Variable has_request_id : QueryRequest -> bool.
Variable set_request_id : QueryRequest -> str -> Outcome QueryRequest.
(** [response.to_dict()] *)
Variable to_dict : QueryResponse -> Outcome PyValue.
(** entering [request_context()] yields the request id *)
Variable request_context : Outcome str.

(** [QueryOrchestrator]: its method [execute_query]. *)
Definition Orchestrator : Type := QueryRequest -> Outcome QueryResponse.

(** The body of the [try]: its outcome and the requests handed to
    the orchestrator. *)
Definition request_scope (orchestrator : Orchestrator)
    (question : str) (database : option str) (return_type : str)
    : Outcome PyValue * list QueryRequest :=
  match
    request_id ← request_context;
    rt ← ReturnType_of return_type;
    request ← new_request question database rt;
    if has_request_id request
    then set_request_id request request_id
    else Returns request
  with
  | Raises e => (Raises e, [])
  | Returns request =>
      (orchestrator request ≫= to_dict, [request])
  end.

(** [query], with the module-level [_orchestrator] as an argument. *)
Definition query (_orchestrator : option Orchestrator)
    (question : str) (database : option str) (return_type : str)
    : Outcome PyValue * list QueryRequest :=
  match _orchestrator with
  | None =>
      (Returns (failure "SERVER_NOT_INITIALIZED"
                  "Server not initialized properly" PyNone), [])
  | Some orchestrator =>
      if negb (bool_decide (return_type ∈ ["sql"; "result"])) then
        (Returns (failure "INVALID_PARAMETER"
                    ("Invalid return_type: '" ++ return_type
                     ++ "'. Must be 'sql' or 'result'.")
                    (PyDict [("return_type", PyStr return_type)])), [])
      else
        let '(outcome, calls) :=
          request_scope orchestrator question database return_type in
        match outcome with
        | Returns result => (Returns result, calls)
        | Raises e =>
            if is_Exception e then
              (Returns (failure "INVALID_REQUEST"
                          ("Invalid request parameters: " ++ exn_text e)
                          (PyDict [("error", PyStr (exn_text e))])), calls)
            else (Raises e, calls)
        end
  end.

End Tool.

(** Modelled from the spec: a database entry of the configuration,
    [DatabaseConfig] of [pg_mcp.config.settings], with its two defaults. *)
Record DatabaseConfig : Type := {
  host : str;
  port : Z;
  name : str;
  user : str;
  password : str;
  min_pool_size : Z;
  max_pool_size : Z
}.

Definition DatabaseConfig_new (host : str) (port : Z)
    (name user password : str) : DatabaseConfig :=
  {| host := host; port := port; name := name; user := user;
     password := password; min_pool_size := 2; max_pool_size := 10 |}.

Section Pools.

(** [os.environ] *)
Variable environ : gmap str str.
(** [int(text)] and [create_pool(config)] *)
Variable int : str -> Outcome Z.
Variable Pool : Type.
Variable create_pool : DatabaseConfig -> Outcome Pool.

(** [os.getenv(key, default)] and [os.getenv(key)] *)
Definition getenv (key fallback : str) : str :=
  default fallback (environ !! key).
Definition getenv_opt (key : str) : option str := environ !! key.

(** Truth value of [os.getenv(key)]: set and not empty. *)
Definition getenv_truthy (key : str) : bool :=
  match getenv_opt key with
  | Some value => PyStr.truthy value
  | None => false
  end.

Definition db1_config : Outcome DatabaseConfig :=
  port ← int (getenv "DATABASE_PORT" "5432");
  Returns (DatabaseConfig_new
             (getenv "DATABASE_HOST" "localhost")
             port
             (getenv "DATABASE_NAME" "postgres")
             (getenv "DATABASE_USER" "postgres")
             (getenv "DATABASE_PASSWORD" "")).

Definition db2_config : Outcome DatabaseConfig :=
  port ← int (getenv "DATABASE2_PORT" (getenv "DATABASE_PORT" "5432"));
  Returns (DatabaseConfig_new
             (getenv "DATABASE2_HOST" (getenv "DATABASE_HOST" "localhost"))
             port
             (default "" (getenv_opt "DATABASE2_NAME"))
             (getenv "DATABASE2_USER" (getenv "DATABASE_USER" "postgres"))
             (getenv "DATABASE2_PASSWORD" (getenv "DATABASE_PASSWORD" ""))).

(** Step 3 of [lifespan]: the registry [_pools] and, in order, the
    configurations [create_pool] was called with. *)
Definition create_pools
    : Outcome (gmap str Pool * list DatabaseConfig) :=
  db1 ← db1_config;
  pool1 ← create_pool db1;
  let _pools : gmap str Pool := <[name db1 := pool1]> ∅ in
  if getenv_truthy "DATABASE2_NAME" then
    db2 ← db2_config;
    pool2 ← create_pool db2;
    Returns (<[name db2 := pool2]> _pools, [db1; db2])
  else Returns (_pools, [db1]).

End Pools.

End Server.

(** ** The vocabulary of the specification *)
Module Spec.

(** Two characters that are equal up to the case of an ASCII letter. *)
Definition same_letter (a b : N) : Prop :=
  a = b
  ∨ (PyStr.is_upper a = true ∧ b = (a + 32)%N)
  ∨ (PyStr.is_upper b = true ∧ a = (b + 32)%N).

(** Two strings that match up to ASCII case. *)
Inductive ascii_case_eq : str -> str -> Prop :=
| case_eq_nil : ascii_case_eq "" ""
| case_eq_cons a b s t :
    same_letter a b -> ascii_case_eq s t ->
    ascii_case_eq (a :: s) (b :: t).

(** A text made of white space only (the empty text included). *)
Fixpoint whitespace_only (s : str) : bool :=
  match s with
  | [] => true
  | c :: r => PyStr.isspace c && whitespace_only r
  end.

(** A semicolon outside the string literals of a text; [quoted] tells
    whether the scan is inside a literal, delimited by single quotes. *)
Fixpoint separator_outside_literals (quoted : bool) (s : str) : bool :=
  match s with
  | [] => false
  | c :: r =>
      if bool_decide ([c] = "'") then separator_outside_literals (negb quoted) r
      else if bool_decide ([c] = ";") && negb quoted then true
      else separator_outside_literals quoted r
  end.

(** The nodes of a tree, the root first: what it contains. *)
Fixpoint nodes (e : exp.Expression) : list exp.Expression :=
  match e with
  | exp.Node _ _ _ _ children =>
      e :: (fix nodes_of (l : list exp.Expression) : list exp.Expression :=
              match l with
              | [] => []
              | c :: r => nodes c ++ nodes_of r
              end) children
  end.

Section WithUnicode.

Context {U : PyStr.Unicode}.

(** The statement kinds the specification forbids. *)
Inductive StatementKind : Type :=
| INSERT | UPDATE | DELETE | CREATE | DROP | ALTER | GRANT | REVOKE
| TRUNCATE | VACUUM | COPY.

Definition keyword (k : StatementKind) : str :=
  match k with
  | INSERT => "INSERT" | UPDATE => "UPDATE" | DELETE => "DELETE"
  | CREATE => "CREATE" | DROP => "DROP" | ALTER => "ALTER"
  | GRANT => "GRANT" | REVOKE => "REVOKE" | TRUNCATE => "TRUNCATE"
  | VACUUM => "VACUUM" | COPY => "COPY"
  end.

(** The expression class of the parser for a kind; [VACUUM] has none
    and is parsed as a command. *)
Definition kind_class (k : StatementKind) : option exp.ExpClass :=
  match k with
  | INSERT => Some exp.Insert | UPDATE => Some exp.Update
  | DELETE => Some exp.Delete | CREATE => Some exp.Create
  | DROP => Some exp.Drop | ALTER => Some exp.Alter
  | GRANT => Some exp.Grant | REVOKE => Some exp.Revoke
  | TRUNCATE => Some exp.TruncateTable | COPY => Some exp.Copy
  | VACUUM => None
  end.

(** A statement of kind [k]: a node of the class of [k], or a command
    node (the fall-back of the parser) whose keyword is that of [k]. *)
Definition has_kind (statement : exp.Expression) (k : StatementKind) : Prop :=
  kind_class k = Some (exp.cls statement)
  ∨ (exp.cls statement = exp.Command
     ∧ PyStr.upper (exp.this statement) = keyword k).

(** An EXPLAIN statement: a command node with that keyword. *)
Definition is_explain (statement : exp.Expression) : Prop :=
  exp.cls statement = exp.Command
  ∧ PyStr.upper (exp.this statement) = "EXPLAIN".

(** A node that is a function call, a table or a column reference. *)
Definition is_reference (n : exp.Expression) : bool :=
  exp.is_func n || exp.isinstance n [exp.Table; exp.Column].

(** An opaque tree: it contains no function, table or column node. *)
Definition opaque (statement : exp.Expression) : Prop :=
  ∀ n, n ∈ nodes statement → is_reference n = false.

(** A column reference that the deny-list of a validator names, by its
    bare name or by its qualified name, both lower-cased; the qualified
    name is that of a column with a table, whose lower-cased name is not
    empty. *)
Definition blocked_reference (self : SQLValidator.t)
    (column : exp.Expression) : Prop :=
  exp.cls column = exp.Column
  ∧ (PyStr.lower (exp.name column) ∈ SQLValidator.blocked_columns self
     ∨ (exp.table column ≠ ""
        ∧ PyStr.lower (exp.table column) ≠ ""
        ∧ PyStr.lower (exp.table column) ++ "." ++ PyStr.lower (exp.name column)
            ∈ SQLValidator.blocked_columns self)).

(** An ASCII name that an entry reads up to case. *)
Definition reads (entry name : str) : Prop :=
  PyStr.is_ascii name = true ∧ ascii_case_eq name entry.

(** A node whose [name] an entry of the configured deny-lists reads up
    to ASCII case: a function node, a table node, and a column node by
    its bare or by its qualified name. *)
Definition denied (cfg : SecurityConfig)
    (tables columns : option (list str)) (node : exp.Expression) : Prop :=
  (exp.is_func node = true
   ∧ ∃ entry, entry ∈ cfg_blocked_functions cfg
              ∧ reads entry (exp.name node))
  ∨ (exp.cls node = exp.Table
     ∧ ∃ entry, entry ∈ default [] tables
                ∧ reads entry (exp.name node))
  ∨ (exp.cls node = exp.Column
     ∧ ∃ entry, entry ∈ default [] columns
                ∧ (reads entry (exp.name node)
                   ∨ (exp.table node ≠ ""
                      ∧ reads entry
                          (exp.table node ++ "." ++ exp.name node)))).

(** The table names of a tree. *)
Definition table_names (statement : exp.Expression) : list str :=
  exp.name <$> filter (λ n, exp.cls n = exp.Table) (nodes statement).

(** *** The options of an EXPLAIN text *)

Definition is_word_char (c : N) : bool :=
  PyStr.is_upper c || PyStr.is_lower c
  || ((48 <=? c)%N && (c <=? 57)%N)
  || bool_decide ([c] = "_").

Definition flush (word : str) : list str :=
  match word with [] => [] | _ => [word] end.

(** Words and punctuation marks of a text; [word] is the word being
    read. *)
Fixpoint tokens (word s : str) : list str :=
  match s with
  | [] => flush word
  | c :: r =>
      if is_word_char c then tokens (word ++ [c]) r
      else flush word
           ++ (if PyStr.isspace c then [] else [[c]])
           ++ tokens "" r
  end.

Fixpoint until_close (l : list str) : list str :=
  match l with
  | [] => []
  | w :: r => if bool_decide (w = ")") then [] else w :: until_close r
  end.

(** The two spellings under which PostgreSQL reads the option. *)
Definition analyze_keywords : list str := ["ANALYZE"; "ANALYSE"].

(** The text asks for the ANALYZE option: [EXPLAIN ANALYZE ...], or
    [EXPLAIN ( ..., ANALYZE, ... ) ...], in either spelling and in any
    case. *)
Definition has_analyze_option (sql : str) : bool :=
  match tokens "" sql with
  | first :: rest =>
      bool_decide (PyStr.upper first = "EXPLAIN")
      && match rest with
         | [] => false
         | w :: options =>
             if bool_decide (w = "(")
             then existsb (λ o, bool_decide (PyStr.upper o ∈ analyze_keywords))
                    (until_close options)
             else bool_decide (PyStr.upper w ∈ analyze_keywords)
         end
  | [] => false
  end.

End WithUnicode.

End Spec.

(** ** A small parser and small collaborators

    A table of SQL texts with the trees the parser library builds for
    them, and stand-ins for the collaborators of the server. They give
    the development concrete inputs to run the validator and the tool on. *)
Module Demo.

(** A part of the Unicode tables, enough for the texts of this module:
    the letters of Latin-1 whose other case is in Latin-1 too, and the
    Kelvin sign U+212A, whose lower case is [k]. This stand-in leaves
    every other character as it is. *)
Definition lower_code (c : N) : N :=
  if PyStr.is_upper c then (c + 32)%N
  else if (192 <=? c)%N && (c <=? 222)%N && negb (c =? 215)%N then (c + 32)%N
  else if (c =? 8490)%N then 107%N
  else c.

Definition upper_code (c : N) : N :=
  if PyStr.is_lower c then (c - 32)%N
  else if (224 <=? c)%N && (c <=? 254)%N && negb (c =? 247)%N then (c - 32)%N
  else c.

Definition unicode : PyStr.Unicode :=
  {| PyStr.unicode_lower := fmap lower_code;
     PyStr.unicode_upper := fmap upper_code |}.

#[local] Existing Instance unicode.

Definition node (c : exp.ExpClass) (text : str)
    (children : list exp.Expression) : exp.Expression :=
  exp.Node c text text "" children.

Definition literal (text : str) := node (exp.Other "Literal") text [].
Definition identifier (text : str) := node (exp.Other "Identifier") text [].
Definition star := exp.Node (exp.Other "Star") "" "*" "" [].
Definition table_ref (t : str) := node exp.Table t [identifier t].
Definition column_ref (t c : str) :=
  exp.Node exp.Column c c t
    (identifier c :: if PyStr.truthy t then [identifier t] else []).
Definition from (t : str) :=
  exp.Node (exp.Other "From") t "" "" [table_ref t].
(** [JOIN t ON a = b]: the table, then the condition on two columns,
    whose [this] is the first of them. *)
Definition join (t : str) (a b : exp.Expression) :=
  exp.Node (exp.Other "Join") t "" ""
    [table_ref t;
     exp.Node (exp.Other "EQ") (exp.table a ++ "." ++ exp.name a) "" ""
       [a; b]].
Definition select (children : list exp.Expression) :=
  exp.Node exp.Select "" "" "" children.
(** A function the parser does not know is an [Anonymous] node, whose
    [name] is the name of the function as it is written. A function it
    knows is a node of a class of its own ([Lower], [Count], ...), whose
    [this] is the argument and whose [name] is the text of [this]: empty
    when the argument is a column. *)
Definition anonymous (f : str) (arguments : list exp.Expression) :=
  node (exp.Func "Anonymous") f arguments.
Definition builtin (cname : str) (argument : exp.Expression) :=
  exp.Node (exp.Func cname) (exp.name argument) "" "" [argument].
(** A command keeps its keyword and, as one literal, the text after it. *)
Definition command (keyword rest : str) :=
  node exp.Command keyword (if PyStr.truthy rest then [literal rest] else []).

(** Each row: a text, its statements, and the text the generator
    writes for the first of them. *)
Definition statements : list (str * (list exp.Expression * str)) :=
  [ ("SELECT 1", ([select [literal "1"]], "SELECT 1"));
    ("SELECT 1;", ([select [literal "1"]], "SELECT 1"));
    ("SELECT 1; SELECT 2",
      ([select [literal "1"]; select [literal "2"]], "SELECT 1"));
    ("select * from users",
      ([select [star; from "users"]], "SELECT * FROM users"));
    ("SELECT * FROM users",
      ([select [star; from "users"]], "SELECT * FROM users"));
    ("select * from users join orders on users.id = orders.user_id",
      ([select [star; from "users";
                join "orders" (column_ref "users" "id")
                  (column_ref "orders" "user_id")]],
       "SELECT * FROM users JOIN orders ON users.id = orders.user_id"));
    ("SELECT * FROM users JOIN orders ON users.id = orders.user_id",
      ([select [star; from "users";
                join "orders" (column_ref "users" "id")
                  (column_ref "orders" "user_id")]],
       "SELECT * FROM users JOIN orders ON users.id = orders.user_id"));
    ("SELECT Password FROM users",
      ([select [column_ref "" "Password"; from "users"]],
       "SELECT Password FROM users"));
    ("SELECT Users.Password FROM Users",
      ([select [column_ref "Users" "Password"; from "Users"]],
       "SELECT Users.Password FROM Users"));
    ("SELECT PG_SLEEP(1)",
      ([select [anonymous "PG_SLEEP" [literal "1"]]], "SELECT PG_SLEEP(1)"));
    ("SELECT LOWER(name) FROM users",
      ([select [builtin "Lower" (column_ref "" "name"); from "users"]],
       "SELECT LOWER(name) FROM users"));
    ("DELETE FROM users",
      ([exp.Node exp.Delete "users" "" "" [table_ref "users"]],
       "DELETE FROM users"));
    ("TRUNCATE TABLE users",
      ([exp.Node exp.TruncateTable "" "" "" [table_ref "users"]],
       "TRUNCATE TABLE users"));
    ("VACUUM", ([command "VACUUM" ""], "VACUUM"));
    ("EXPLAIN SELECT 1",
      ([command "EXPLAIN" "SELECT 1"], "EXPLAIN SELECT 1"));
    ("EXPLAIN ANALYZE SELECT 1",
      ([command "EXPLAIN" "ANALYZE SELECT 1"], "EXPLAIN ANALYZE SELECT 1"));
    ("EXPLAIN ANALYSE SELECT 1",
      ([command "EXPLAIN" "ANALYSE SELECT 1"], "EXPLAIN ANALYSE SELECT 1"));
    ("EXPLAIN SELECT * FROM analyze_log",
      ([command "EXPLAIN" "SELECT * FROM analyze_log"],
       "EXPLAIN SELECT * FROM analyze_log"));
    ("EXPLAIN DELETE FROM users",
      ([command "EXPLAIN" "DELETE FROM users"], "EXPLAIN DELETE FROM users"));
    ("EXPLAIN SELECT pg_sleep(10), secret FROM audit_log",
      ([command "EXPLAIN" "SELECT pg_sleep(10), secret FROM audit_log"],
       "EXPLAIN SELECT pg_sleep(10), secret FROM audit_log"));
    ("SELECT pg_sleep(10), secret FROM audit_log",
      ([select [anonymous "pg_sleep" [literal "10"];
                column_ref "" "secret"; from "audit_log"]],
       "SELECT pg_sleep(10), secret FROM audit_log")) ].

Definition row (sql : str) : option (list exp.Expression * str) :=
  snd <$> List.find (λ r, bool_decide (fst r = sql)) statements.

Definition no_parse {A} (sql : str) : Result A :=
  Raise (ParserException ("No expression was parsed from '" ++ sql ++ "'")).

(** [sqlglot.parse] *)
Definition parse (sql : str) : Result (list (option exp.Expression)) :=
  match row sql with
  | Some (trees, _) => Ok (Some <$> trees)
  | None => no_parse sql
  end.

(** [parse_one]: the first statement of [parse]. *)
Definition parse_one (sql : str) : Result exp.Expression :=
  match row sql with
  | Some (tree :: _, _) => Ok tree
  | _ => no_parse sql
  end.

(** Equality of trees, as a test. *)
Fixpoint same_tree (a b : exp.Expression) : bool :=
  match a, b with
  | exp.Node c1 t1 n1 q1 l1, exp.Node c2 t2 n2 q2 l2 =>
      bool_decide (c1 = c2) && bool_decide (t1 = t2)
      && bool_decide (n1 = n2) && bool_decide (q1 = q2)
      && (fix same_trees (l l' : list exp.Expression) : bool :=
            match l, l' with
            | [], [] => true
            | x :: r, y :: r' => same_tree x y && same_trees r r'
            | _, _ => false
            end) l1 l2
  end.

(** [expression.sql()]: the text written for a tree of the table. *)
Definition to_sql (tree : exp.Expression) : Result str :=
  match List.find (λ r, match fst (snd r) with
                        | first :: _ => same_tree first tree
                        | [] => false
                        end) statements with
  | Some r => Ok (snd (snd r))
  | None => Raise (ParserException "no generator for this tree")
  end.

(** A validator: [users.password], [secret] and [pg_sleep] are denied,
    in a configuration written in mixed case. *)
Definition security : SecurityConfig :=
  {| cfg_explain_policy := EXPLAIN_ONLY;
     cfg_blocked_tables := ["Audit_Log"];
     cfg_blocked_columns := ["Users.Password"; "SECRET"];
     cfg_blocked_functions := ["pg_sleep"; "Pg_Read_File"] |}.

Definition validator (policy : ExplainPolicy) : SQLValidator.t :=
  SQLValidator.init security
    (Some (cfg_blocked_tables security))
    (Some (cfg_blocked_columns security))
    policy.

(** Collaborators of the tool: a request is the triple it was built
    from and its request id; the response is a dict already. *)
Definition QueryRequest : Type :=
  str * option str * Server.ReturnType * option str.

Definition new_request (question : str) (database : option str)
    (rt : Server.ReturnType) : Server.Outcome QueryRequest :=
  if PyStr.truthy question then Server.Returns (question, database, rt, None)
  else Server.Raises {| Server.is_Exception := true;
                        Server.exn_text := "question must not be empty" |}.

Definition set_request_id (r : QueryRequest) (id : str)
    : Server.Outcome QueryRequest :=
  let '(question, database, rt, _) := r in
  Server.Returns (question, database, rt, Some id).

Definition to_dict (response : Server.PyValue) : Server.Outcome Server.PyValue :=
  Server.Returns response.

Definition request_context : Server.Outcome str := Server.Returns "req-1".

(** An orchestrator that answers, one that fails, one that is cancelled. *)
Definition answering : QueryRequest -> Server.Outcome Server.PyValue :=
  λ _, Server.Returns
         (Server.PyDict [("success", Server.PyBool true);
                         ("generated_sql", Server.PyStr "SELECT 1")]).
Definition failing : QueryRequest -> Server.Outcome Server.PyValue :=
  λ _, Server.Raises {| Server.is_Exception := true;
                        Server.exn_text := "boom" |}.
Definition cancelled : QueryRequest -> Server.Outcome Server.PyValue :=
  λ _, Server.Raises {| Server.is_Exception := false;
                        Server.exn_text := "" |}.

Definition query :=
  Server.query QueryRequest Server.PyValue new_request (λ _, true)
    set_request_id to_dict request_context.

(** [int] on decimal digits *)
Fixpoint digits (acc : Z) (s : str) : option Z :=
  match s with
  | [] => Some acc
  | c :: r =>
      if (48 <=? c)%N && (c <=? 57)%N
      then digits (10 * acc + Z.of_N (c - 48)) r
      else None
  end.

Definition int (text : str) : Server.Outcome Z :=
  match (if PyStr.truthy text then digits 0 text else None) with
  | Some z => Server.Returns z
  | None => Server.Raises {| Server.is_Exception := true;
                             Server.exn_text := "invalid literal for int()" |}
  end.

(** A pool is the configuration it was created from. *)
Definition create_pool (c : Server.DatabaseConfig)
    : Server.Outcome Server.DatabaseConfig := Server.Returns c.

Definition create_pools (environ : gmap str str) :=
  Server.create_pools environ int Server.DatabaseConfig create_pool.

End Demo.

(** ** The life of the server: [lifespan] in [server.py] *)
Module Lifespan.

Import Server.

(** A Python dict keeps its keys in insertion order: the list of its
    items. [d[k] = v] replaces the value of a key that is present, in
    place, and appends a new key. *)
Fixpoint dict_set {V} (k : str) (v : V) (d : list (str * V))
    : list (str * V) :=
  match d with
  | [] => [(k, v)]
  | (k', v') :: rest =>
      if bool_decide (k' = k) then (k, v) :: rest
      else (k', v') :: dict_set k v rest
  end.

Definition dict_get {V} (k : str) (d : list (str * V)) : option V :=
  snd <$> List.find (λ kv, bool_decide (fst kv = k)) d.

(** [try: body except Exception: pass] around a call whose value is
    dropped: an [Exception] is swallowed, anything else goes through. *)
Definition swallow {A} (call : Outcome A) : Outcome unit :=
  match call with
  | Returns _ => Returns tt
  | Raises e => if is_Exception e then Returns tt else Raises e
  end.

(** The collaborators of [lifespan], none of them among the sources.
    Each call may raise. *)
Class World : Type := {
  Settings : Type;
  Pool : Type;
  SchemaCache : Type;
  MetricsCollector : Type;
  SQLGenerator : Type;
  SQLExecutor : Type;
  ResultValidator : Type;
  CircuitBreaker : Type;
  MultiRateLimiter : Type;
  QueryRequest : Type;
  QueryResponse : Type;
  (** the fields of the settings that the function reads *)
  security : Settings -> SecurityConfig;
  metrics_enabled : Settings -> bool;
  metrics_port : Settings -> Z;
  (** the two [logging.FileHandler(...)] of the function *)
  emergency_handler : Outcome unit;
  debug_handler : Outcome unit;
  (** [Settings()] and [configure_logging(...)] *)
  load_settings : Outcome Settings;
  configure_logging : Settings -> Outcome unit;
  (** [os.environ], [int(text)], [create_pool(config)] *)
  environ : gmap str str;
  int : str -> Outcome Z;
  create_pool : DatabaseConfig -> Outcome Pool;
  (** the constructors of the components *)
  new_schema_cache : Settings -> Outcome SchemaCache;
  new_metrics : Outcome MetricsCollector;
  start_http_server : Z -> Outcome unit;
  new_sql_generator : Settings -> Outcome SQLGenerator;
  new_sql_executor :
    Pool -> Settings -> MetricsCollector -> Outcome SQLExecutor;
  new_result_validator : Settings -> Outcome ResultValidator;
  new_circuit_breaker : Settings -> Outcome CircuitBreaker;
  new_rate_limiter : Z -> Z -> Outcome MultiRateLimiter;
  new_orchestrator :
    SQLGenerator -> SQLValidator.t -> list (str * SQLExecutor) ->
    ResultValidator -> SchemaCache -> list (str * Pool) -> Settings ->
    MultiRateLimiter -> MetricsCollector ->
    Outcome (Orchestrator QueryRequest QueryResponse);
  (** what happens at [yield], while the server runs *)
  serve : Outcome unit;
  (** the text of the fatal error, and writing it to
      [mcp_fatal_error.log] *)
  error_detail : PyExn -> str;
  write_fatal_error : str -> Outcome unit;
  (** [_schema_cache.stop_auto_refresh()] under its time-out, and
      [close_pools(_pools, timeout=5.0)] *)
  stop_auto_refresh : SchemaCache -> Outcome unit;
  close_pools : list (str * Pool) -> Outcome unit
}.

Section Lifespan.

Context {U : PyStr.Unicode} `{W : World}.

(** The module-level state. *)
Record Globals : Type := {
  _settings : option Settings;
  _pools : option (list (str * Pool));
  _schema_cache : option SchemaCache;
  _orchestrator : option (Orchestrator QueryRequest QueryResponse);
  _metrics : option MetricsCollector;
  _circuit_breaker : option CircuitBreaker;
  _rate_limiter : option MultiRateLimiter
}.

(** The state of a fresh process. *)
Definition fresh : Globals :=
  {| _settings := None; _pools := None; _schema_cache := None;
     _orchestrator := None; _metrics := None; _circuit_breaker := None;
     _rate_limiter := None |}.

(** What the function does to the world outside its state. *)
Inductive Event : Type :=
| CreatedPool (config : DatabaseConfig) (pool : Pool)
| StartedMetricsServer (port : Z)
| WroteFatalError (detail : str)
| StoppedAutoRefresh (cache : SchemaCache)
| ClosedPools (registry : list (str * Pool)).

(** A step reads and writes the state, adds events, and may raise. *)
Definition Step (A : Type) : Type :=
  Globals * list Event -> Outcome A * (Globals * list Event).

Definition ret {A} (a : A) : Step A := λ s, (Returns a, s).

Definition bind {A B} (m : Step A) (k : A -> Step B) : Step B :=
  λ s, match m s with
       | (Returns a, s') => k a s'
       | (Raises e, s') => (Raises e, s')
       end.

Definition call {A} (outcome : Outcome A) : Step A := λ s, (outcome, s).
Definition emit (ev : Event) : Step unit :=
  λ s, (Returns tt, (s.1, s.2 ++ [ev])).
Definition read : Step Globals := λ s, (Returns s.1, s).
Definition write (f : Globals -> Globals) : Step unit :=
  λ s, (Returns tt, (f s.1, s.2)).

Local Notation "x <- m ; k" := (bind m (λ x, k))
  (at level 100, m at next level, right associativity).
Local Notation "m ;;; k" := (bind m (λ _, k))
  (at level 100, right associativity).

Definition set_settings (v : Settings) (g : Globals) : Globals :=
  {| _settings := Some v; _pools := _pools g;
     _schema_cache := _schema_cache g; _orchestrator := _orchestrator g;
     _metrics := _metrics g; _circuit_breaker := _circuit_breaker g;
     _rate_limiter := _rate_limiter g |}.
Definition set_pools (v : list (str * Pool)) (g : Globals) : Globals :=
  {| _settings := _settings g; _pools := Some v;
     _schema_cache := _schema_cache g; _orchestrator := _orchestrator g;
     _metrics := _metrics g; _circuit_breaker := _circuit_breaker g;
     _rate_limiter := _rate_limiter g |}.
Definition set_schema_cache (v : SchemaCache) (g : Globals) : Globals :=
  {| _settings := _settings g; _pools := _pools g;
     _schema_cache := Some v; _orchestrator := _orchestrator g;
     _metrics := _metrics g; _circuit_breaker := _circuit_breaker g;
     _rate_limiter := _rate_limiter g |}.
Definition set_orchestrator (v : Orchestrator QueryRequest QueryResponse)
    (g : Globals) : Globals :=
  {| _settings := _settings g; _pools := _pools g;
     _schema_cache := _schema_cache g; _orchestrator := Some v;
     _metrics := _metrics g; _circuit_breaker := _circuit_breaker g;
     _rate_limiter := _rate_limiter g |}.
Definition set_metrics (v : MetricsCollector) (g : Globals) : Globals :=
  {| _settings := _settings g; _pools := _pools g;
     _schema_cache := _schema_cache g; _orchestrator := _orchestrator g;
     _metrics := Some v; _circuit_breaker := _circuit_breaker g;
     _rate_limiter := _rate_limiter g |}.
Definition set_circuit_breaker (v : CircuitBreaker) (g : Globals) : Globals :=
  {| _settings := _settings g; _pools := _pools g;
     _schema_cache := _schema_cache g; _orchestrator := _orchestrator g;
     _metrics := _metrics g; _circuit_breaker := Some v;
     _rate_limiter := _rate_limiter g |}.
Definition set_rate_limiter (v : MultiRateLimiter) (g : Globals) : Globals :=
  {| _settings := _settings g; _pools := _pools g;
     _schema_cache := _schema_cache g; _orchestrator := _orchestrator g;
     _metrics := _metrics g; _circuit_breaker := _circuit_breaker g;
     _rate_limiter := Some v |}.

(** The events of the creation of a pool. *)
Definition is_created (ev : Event) : Prop :=
  ∃ config pool, ev = CreatedPool config pool.

(** [pool = await create_pool(config); _pools[config.name] = pool] *)
Definition register_pool (config : DatabaseConfig) : Step unit :=
  pool <- call (create_pool config);
  emit (CreatedPool config pool) ;;;
  write (λ g, set_pools (dict_set (name config) pool (default [] (_pools g))) g).

(** Step 3: the pools. *)
Definition create_pools : Step unit :=
  write (set_pools []) ;;;
  db1 <- call (db1_config environ int);
  register_pool db1 ;;;
  if getenv_truthy environ "DATABASE2_NAME" then
    db2 <- call (db2_config environ int);
    register_pool db2
  else ret tt.

(** The loop of step 6: one executor for each item of [_pools], in the
    order of the dict. *)
Fixpoint create_executors (settings : Settings) (metrics : MetricsCollector)
    (items : list (str * Pool)) : Outcome (list (str * SQLExecutor)) :=
  match items with
  | [] => Returns []
  | (db_name, pool) :: rest =>
      executor ← new_sql_executor pool settings metrics;
      executors ← create_executors settings metrics rest;
      Returns ((db_name, executor) :: executors)
  end.

(** The body of the [try], up to the [yield]. *)
Definition startup : Step unit :=
  settings <- call load_settings;
  write (set_settings settings) ;;;
  call (configure_logging settings) ;;;
  call debug_handler ;;;
  create_pools ;;;
  cache <- call (new_schema_cache settings);
  write (set_schema_cache cache) ;;;
  metrics <- call new_metrics;
  write (set_metrics metrics) ;;;
  (if metrics_enabled settings then
     call (start_http_server (metrics_port settings)) ;;;
     emit (StartedMetricsServer (metrics_port settings))
   else ret tt) ;;;
  sql_generator <- call (new_sql_generator settings);
  let sql_validator :=
    SQLValidator.init (security settings)
      (Some (cfg_blocked_tables (security settings)))
      (Some (cfg_blocked_columns (security settings)))
      (cfg_explain_policy (security settings)) in
  g <- read;
  let pools := default [] (_pools g) in
  sql_executors <- call (create_executors settings metrics pools);
  result_validator <- call (new_result_validator settings);
  breaker <- call (new_circuit_breaker settings);
  write (set_circuit_breaker breaker) ;;;
  limiter <- call (new_rate_limiter 10 5);
  write (set_rate_limiter limiter) ;;;
  orchestrator <-
    call (new_orchestrator sql_generator sql_validator sql_executors
            result_validator cache pools settings limiter metrics);
  write (set_orchestrator orchestrator).

(** The [except Exception as e] clause: the detail is written to a file,
    a failure to write is ignored, and [e] is raised again. *)
Definition on_exception (e : PyExn) : Step unit :=
  if is_Exception e then
    match write_fatal_error (error_detail e) with
    | Returns _ => emit (WroteFatalError (error_detail e)) ;;; call (Raises e)
    | Raises w => if is_Exception w then call (Raises e) else call (Raises w)
    end
  else call (Raises e).

(** The [finally] clause. *)
Definition shutdown : Step unit :=
  g <- read;
  (match _schema_cache g with
   | Some cache =>
       emit (StoppedAutoRefresh cache) ;;;
       call (swallow (stop_auto_refresh cache))
   | None => ret tt
   end) ;;;
  match _pools g with
  | Some registry =>
      emit (ClosedPools registry) ;;;
      call (swallow (close_pools registry))
  | None => ret tt
  end.

(** [lifespan]: the handler of the emergency log is opened outside the
    [try]; an exception of the [finally] clause replaces the one in
    flight. *)
Definition lifespan (g : Globals) : Outcome unit * (Globals * list Event) :=
  match emergency_handler with
  | Raises e => (Raises e, (g, []))
  | Returns _ =>
      let '(body, s1) := (startup ;;; call serve) (g, []) in
      let '(handled, s2) :=
        match body with
        | Returns _ => (Returns tt, s1)
        | Raises e => on_exception e s1
        end in
      let '(final, s3) := shutdown s2 in
      match final with
      | Returns _ => (handled, s3)
      | Raises e => (Raises e, s3)
      end
  end.

End Lifespan.

End Lifespan.

(** ** The entry point: [main] in [__main__.py] *)
Module Main.

Import Server.

(** How [main] ends: it returns, it leaves through [sys.exit(code)], or
    an exception that is not an [Exception] goes through. *)
Inductive Exit : Type :=
| Returned
| SystemExit (code : Z)
| Propagated (e : PyExn).

Inductive Output : Type :=
| LoggedError (message : str)     (* [logger.error(message)] *)
| PrintedStderr (message : str)   (* [print(message, file=sys.stderr)] *)
| WroteErrorLog (message : str).  (* [mcp_error.log] *)

Section Main.

Variable Logger : Type.
(** [setup_emergency_logging()], [anyio.run(mcp.run_stdio_async)],
    [traceback.format_exc()] and the write of [mcp_error.log] *)
Variable setup_emergency_logging : Outcome Logger.
Variable run_server : Outcome unit.
Variable format_exc : PyExn -> str.
Variable write_error_log : str -> Outcome unit.

Definition error_msg (e : PyExn) : str :=
  "Fatal error during server startup: " ++ exn_text e
  ++ [10%N] ++ format_exc e.

(** The [except Exception as e] clause of [main]; [logger] is [None]
    when the set-up of the logging itself failed. *)
Definition on_exception (logger : option Logger) (e : PyExn)
    : Exit * list Output :=
  if is_Exception e then
    let logged :=
      match logger with
      | Some _ => [LoggedError (error_msg e)]
      | None => []
      end in
    let printed := logged ++ [PrintedStderr (error_msg e)] in
    match write_error_log (error_msg e) with
    | Returns _ => (SystemExit 1, printed ++ [WroteErrorLog (error_msg e)])
    | Raises w =>
        if is_Exception w then (SystemExit 1, printed)
        else (Propagated w, printed)
    end
  else (Propagated e, []).

(** [main] *)
Definition main : Exit * list Output :=
  match setup_emergency_logging with
  | Raises e => on_exception None e
  | Returns logger =>
      match run_server with
      | Raises e => on_exception (Some logger) e
      | Returns _ => (Returned, [])
      end
  end.

End Main.

End Main.

(** ** A small world for [lifespan] and [main] *)
Module Fixtures.

Import Server.

(** [create_pool] that cannot reach the database named [down]. *)
Definition create_pool_unless (down : str) (c : DatabaseConfig)
    : Outcome DatabaseConfig :=
  if bool_decide (name c = down) then
    Raises {| is_Exception := true; exn_text := "connection refused" |}
  else Returns c.

(** A world in which every collaborator answers: the settings are the
    security configuration, a pool and an executor are the configuration
    they were made for, the other components carry no data. *)
Definition world (variables : gmap str str) (down : str)
    (served : Outcome unit) : Lifespan.World :=
  {| Lifespan.Settings := SecurityConfig;
     Lifespan.Pool := DatabaseConfig;
     Lifespan.SchemaCache := unit;
     Lifespan.MetricsCollector := unit;
     Lifespan.SQLGenerator := unit;
     Lifespan.SQLExecutor := DatabaseConfig;
     Lifespan.ResultValidator := unit;
     Lifespan.CircuitBreaker := unit;
     Lifespan.MultiRateLimiter := Z * Z;
     Lifespan.QueryRequest := Demo.QueryRequest;
     Lifespan.QueryResponse := PyValue;
     Lifespan.security := λ settings, settings;
     Lifespan.metrics_enabled := λ _, true;
     Lifespan.metrics_port := λ _, 9090%Z;
     Lifespan.emergency_handler := Returns tt;
     Lifespan.debug_handler := Returns tt;
     Lifespan.load_settings := Returns Demo.security;
     Lifespan.configure_logging := λ _, Returns tt;
     Lifespan.environ := variables;
     Lifespan.int := Demo.int;
     Lifespan.create_pool := create_pool_unless down;
     Lifespan.new_schema_cache := λ _, Returns tt;
     Lifespan.new_metrics := Returns tt;
     Lifespan.start_http_server := λ _, Returns tt;
     Lifespan.new_sql_generator := λ _, Returns tt;
     Lifespan.new_sql_executor := λ pool _ _, Returns pool;
     Lifespan.new_result_validator := λ _, Returns tt;
     Lifespan.new_circuit_breaker := λ _, Returns tt;
     Lifespan.new_rate_limiter := λ queries calls, Returns (queries, calls);
     Lifespan.new_orchestrator := λ _ _ _ _ _ _ _ _ _, Returns Demo.answering;
     Lifespan.serve := served;
     Lifespan.error_detail := λ e, "FATAL ERROR: " ++ exn_text e;
     Lifespan.write_fatal_error := λ _, Returns tt;
     Lifespan.stop_auto_refresh := λ _, Returns tt;
     Lifespan.close_pools := λ _, Returns tt |}.

(** [main] with a logger that is set up, a server that ends as [served]
    and an error log that cannot be written. *)
Definition main (served : Outcome unit) : Main.Exit * list Main.Output :=
  Main.main unit (Returns tt) served (λ _, "Traceback")
    (λ _, Raises {| is_Exception := true; exn_text := "read-only file system" |}).

End Fixtures.

(** ** Verdicts of the validator *)
Module Verdicts.

Section WithUnicode.

Context {U : PyStr.Unicode}.

(** The policy lets an EXPLAIN with this text through. *)
Definition explain_permitted (policy : ExplainPolicy) (sql : str) : Prop :=
  policy = EXPLAIN_ANALYZE
  ∨ (policy = EXPLAIN_ONLY
     ∧ PyStr.contains "ANALYZE" (PyStr.upper sql) = false).

(** The statements whose kind the validator lets through: a SELECT, a
    UNION, a parenthesised query; an EXPLAIN command when the policy
    permits; and a node of a class outside the named ones whose key reads
    select or union (the parser library has none). *)
Definition kind_allowed (self : SQLValidator.t)
    (statement : exp.Expression) (sql : str) : Prop :=
  exp.cls statement ∈ [exp.Select; exp.Union; exp.Subquery]
  ∨ (Spec.is_explain statement
     ∧ explain_permitted (SQLValidator.explain_policy self) sql)
  ∨ (∃ cname,
       (exp.cls statement = exp.Func cname
        ∨ exp.cls statement = exp.Other cname)
       ∧ PyStr.upper (PyStr.lower cname) ∈ ["SELECT"; "UNION"]).

(** A function call, a table reference, a column reference that the sets
    of the validator deny. *)
Definition denied_function (self : SQLValidator.t)
    (node : exp.Expression) : Prop :=
  exp.is_func node = true
  ∧ PyStr.lower (exp.name node) ∈ SQLValidator.blocked_functions self.

Definition denied_table (self : SQLValidator.t)
    (node : exp.Expression) : Prop :=
  exp.cls node = exp.Table
  ∧ PyStr.lower (exp.name node) ∈ SQLValidator.blocked_tables self.

Definition denied_node (self : SQLValidator.t)
    (node : exp.Expression) : Prop :=
  denied_function self node
  ∨ denied_table self node
  ∨ Spec.blocked_reference self node.

End WithUnicode.

End Verdicts.

(** * Properties *)

(** ** Strings *)
Section StringFacts.

Context {U : PyStr.Unicode}.

(** Arithmetic on code points, from the tests on their ranges. *)
Local Ltac code_arith :=
  repeat match goal with
    | H : _ && _ = true |- _ => apply andb_true_iff in H as [? ?]
    | H : _ && _ = false |- _ => apply andb_false_iff in H as [?|?]
    | H : (_ <=? _)%N = true |- _ => apply N.leb_le in H
    | H : (_ <=? _)%N = false |- _ => apply N.leb_gt in H
    | H : (_ <? _)%N = true |- _ => apply N.ltb_lt in H
    | H : (_ <? _)%N = false |- _ => apply N.ltb_ge in H
    end;
  rewrite ?N.ltb_lt, ?N.leb_le; lia.

Lemma is_ascii_app (s t : str) :
  PyStr.is_ascii (s ++ t) = PyStr.is_ascii s && PyStr.is_ascii t.
Proof. apply forallb_app. Qed.

Lemma lower_ascii (s : str) :
  PyStr.is_ascii s = true -> PyStr.lower s = PyStr.lower_char <$> s.
Proof. unfold PyStr.lower. by intros ->. Qed.

Lemma upper_ascii (s : str) :
  PyStr.is_ascii s = true -> PyStr.upper s = PyStr.upper_char <$> s.
Proof. unfold PyStr.upper. by intros ->. Qed.

Lemma lower_app (s t : str) :
  PyStr.is_ascii (s ++ t) = true ->
  PyStr.lower (s ++ t) = PyStr.lower s ++ PyStr.lower t.
Proof.
  intros Hst. pose proof Hst as Hboth.
  rewrite is_ascii_app in Hboth. apply andb_true_iff in Hboth as [Hs Ht].
  rewrite !lower_ascii by done. apply fmap_app.
Qed.

Lemma upper_app (s t : str) :
  PyStr.is_ascii (s ++ t) = true ->
  PyStr.upper (s ++ t) = PyStr.upper s ++ PyStr.upper t.
Proof.
  intros Hst. pose proof Hst as Hboth.
  rewrite is_ascii_app in Hboth. apply andb_true_iff in Hboth as [Hs Ht].
  rewrite !upper_ascii by done. apply fmap_app.
Qed.

Lemma lower_char_same_letter (a b : N) :
  Spec.same_letter a b -> PyStr.lower_char a = PyStr.lower_char b.
Proof.
  unfold PyStr.lower_char, PyStr.is_upper.
  intros [->|[[Hup ->]|[Hup ->]]]; [done| |];
    unfold PyStr.is_upper in Hup;
    repeat case_match; try done; code_arith.
Qed.

Lemma upper_char_same_letter (a b : N) :
  Spec.same_letter a b -> PyStr.upper_char a = PyStr.upper_char b.
Proof.
  unfold PyStr.upper_char, PyStr.is_lower, PyStr.is_upper.
  intros [->|[[Hup ->]|[Hup ->]]]; [done| |];
    unfold PyStr.is_upper in Hup;
    repeat case_match; try done; code_arith.
Qed.

(** Texts that match up to ASCII case are ASCII together. *)
Lemma case_eq_is_ascii (s t : str) :
  Spec.ascii_case_eq s t -> PyStr.is_ascii s = PyStr.is_ascii t.
Proof.
  induction 1 as [|a b s t Hab _ IH]; [done|]. simpl. rewrite IH. f_equal.
  destruct Hab as [->|[[Hup ->]|[Hup ->]]]; [done| |];
    unfold PyStr.is_upper in Hup;
    apply eq_true_iff_eq; rewrite !N.ltb_lt; code_arith.
Qed.

Lemma lower_chars_case_eq (s t : str) :
  Spec.ascii_case_eq s t ->
  PyStr.lower_char <$> s = PyStr.lower_char <$> t.
Proof.
  induction 1 as [|a b s t Hab _ IH]; [done|].
  rewrite !fmap_cons. by rewrite (lower_char_same_letter a b Hab), IH.
Qed.

Lemma upper_chars_case_eq (s t : str) :
  Spec.ascii_case_eq s t ->
  PyStr.upper_char <$> s = PyStr.upper_char <$> t.
Proof.
  induction 1 as [|a b s t Hab _ IH]; [done|].
  rewrite !fmap_cons. by rewrite (upper_char_same_letter a b Hab), IH.
Qed.

(** ASCII texts that match up to case have the same [lower()] and the
    same [upper()]. *)
Lemma lower_case_eq (s t : str) :
  PyStr.is_ascii s = true ->
  Spec.ascii_case_eq s t -> PyStr.lower s = PyStr.lower t.
Proof.
  intros Hs Hst. pose proof (case_eq_is_ascii s t Hst) as Ht.
  rewrite Hs in Ht. rewrite !lower_ascii by done.
  by apply lower_chars_case_eq.
Qed.

Lemma upper_case_eq (s t : str) :
  PyStr.is_ascii s = true ->
  Spec.ascii_case_eq s t -> PyStr.upper s = PyStr.upper t.
Proof.
  intros Hs Hst. pose proof (case_eq_is_ascii s t Hst) as Ht.
  rewrite Hs in Ht. rewrite !upper_ascii by done.
  by apply upper_chars_case_eq.
Qed.

Lemma same_letter_lower_char (a b : N) :
  PyStr.lower_char a = PyStr.lower_char b -> Spec.same_letter a b.
Proof.
  unfold PyStr.lower_char, Spec.same_letter.
  destruct (PyStr.is_upper a) eqn:Ha, (PyStr.is_upper b) eqn:Hb; intros H.
  - left. lia.
  - right. left. done.
  - right. right. done.
  - by left.
Qed.

(** For ASCII texts, matching up to case is having the same [lower()]. *)
Lemma case_eq_lower (s t : str) :
  PyStr.is_ascii s = true -> PyStr.is_ascii t = true ->
  Spec.ascii_case_eq s t <-> PyStr.lower s = PyStr.lower t.
Proof.
  intros Hs Ht. split; [by apply lower_case_eq|].
  rewrite !lower_ascii by done. clear Hs Ht.
  revert t. induction s as [|a s IH]; intros [|b t] H; simplify_eq/=.
  - constructor.
  - constructor; [by apply same_letter_lower_char|by apply IH].
Qed.

Lemma lower_char_idemp (c : N) :
  PyStr.lower_char (PyStr.lower_char c) = PyStr.lower_char c.
Proof.
  unfold PyStr.lower_char, PyStr.is_upper.
  repeat case_match; try done; code_arith.
Qed.

Lemma lower_char_ascii (s : str) :
  PyStr.is_ascii s = true -> PyStr.is_ascii (PyStr.lower_char <$> s) = true.
Proof.
  unfold PyStr.is_ascii. induction s as [|c s IH]; simpl; [done|].
  rewrite !andb_true_iff. intros [Hc Hs]. split; [|by apply IH].
  unfold PyStr.lower_char, PyStr.is_upper. case_match; code_arith.
Qed.

(** On an ASCII text, [lower()] changes nothing the second time. *)
Lemma lower_idemp (s : str) :
  PyStr.is_ascii s = true -> PyStr.lower (PyStr.lower s) = PyStr.lower s.
Proof.
  intros Hs. rewrite (lower_ascii s Hs).
  rewrite lower_ascii by by apply lower_char_ascii.
  rewrite <- list_fmap_compose. apply list_fmap_ext.
  intros i c _. apply lower_char_idemp.
Qed.

Lemma lstrip_empty (s : str) :
  PyStr.lstrip s = "" <-> Spec.whitespace_only s = true.
Proof.
  induction s as [|c s IH]; simpl; [done|].
  destruct (PyStr.isspace c); simpl; [done|]. split; discriminate.
Qed.

Lemma rstrip_empty (s : str) :
  PyStr.rstrip s = "" <-> Spec.whitespace_only s = true.
Proof.
  induction s as [|c s IH]; simpl; [done|].
  destruct (PyStr.rstrip s) eqn:Hr.
  - destruct (PyStr.isspace c); simpl.
    + rewrite <- IH. done.
    + split; discriminate.
  - split; [discriminate|].
    intros [_ Hs]%andb_true_iff. apply IH in Hs. discriminate.
Qed.

Lemma lstrip_whitespace_only (s : str) :
  Spec.whitespace_only (PyStr.lstrip s) = Spec.whitespace_only s.
Proof.
  induction s as [|c s IH]; simpl; [done|].
  destruct (PyStr.isspace c) eqn:Hc; simpl; [done|]. by rewrite Hc.
Qed.

(** [s.strip()] is empty exactly when [s] is white space only. *)
Lemma strip_empty (s : str) :
  PyStr.strip s = "" <-> Spec.whitespace_only s = true.
Proof.
  unfold PyStr.strip. by rewrite rstrip_empty, lstrip_whitespace_only.
Qed.

Lemma truthy_false (s : str) : PyStr.truthy s = false <-> s = "".
Proof. destruct s; simpl; split; done. Qed.

(** The emptiness test at the head of [validate_or_raise]. *)
Lemma empty_test (s : str) :
  negb (PyStr.truthy s) || negb (PyStr.truthy (PyStr.strip s))
  = Spec.whitespace_only s.
Proof.
  destruct (Spec.whitespace_only s) eqn:Hw.
  - apply strip_empty in Hw. rewrite Hw. simpl. apply orb_true_r.
  - destruct s as [|c s]; [done|]. simpl negb at 1.
    destruct (PyStr.strip (c :: s)) eqn:Hs; [|done].
    apply strip_empty in Hs. congruence.
Qed.

Lemma prefix_spec (n h : str) :
  PyStr.startswith n h = true <-> ∃ post, h = n ++ post.
Proof.
  revert h. induction n as [|a n IH]; intros [|b h]; simpl.
  - split; [intros _; by exists ""|done].
  - split; [intros _; by exists (b :: h)|done].
  - split; [done|intros [? ?]; done].
  - rewrite andb_true_iff, N.eqb_eq, IH. split.
    + intros [-> [post ->]]. by exists post.
    + intros [post Hp]. simplify_eq. split; [done|by exists post].
Qed.

Lemma contains_unfold (n h : str) :
  PyStr.contains n h =
  if PyStr.startswith n h then true
  else match h with
       | [] => false
       | _ :: r => PyStr.contains n r
       end.
Proof. by destruct h. Qed.

(** [needle in hay] holds exactly when [hay] has [needle] inside. *)
Lemma contains_spec (n h : str) :
  PyStr.contains n h = true <-> ∃ pre post, h = pre ++ n ++ post.
Proof.
  induction h as [|b h IH]; rewrite contains_unfold.
  - destruct (PyStr.startswith n "") eqn:Hp.
    + apply prefix_spec in Hp as [post Hp]. split; [|done].
      intros _. exists "", post. exact Hp.
    + split; [done|]. intros ([|c pre] & post & Hh); [|done].
      assert (PyStr.startswith n "" = true) as Hp'
        by (apply prefix_spec; by exists post).
      congruence.
  - destruct (PyStr.startswith n (b :: h)) eqn:Hp.
    + apply prefix_spec in Hp as [post Hp]. split; [|done].
      intros _. exists "", post. exact Hp.
    + rewrite IH. split.
      * intros (pre & post & ->). by exists (b :: pre), post.
      * intros ([|c pre] & post & Hh).
        -- assert (PyStr.startswith n (b :: h) = true) as Hp'
             by (apply prefix_spec; by exists post).
           congruence.
        -- simplify_eq/=. by exists pre, post.
Qed.

(** On an ASCII text, what is inside is inside once both are in upper
    case. *)
Lemma contains_upper (n h : str) :
  PyStr.is_ascii h = true ->
  PyStr.contains n h = true ->
  PyStr.contains (PyStr.upper n) (PyStr.upper h) = true.
Proof.
  intros Hh. rewrite !contains_spec. intros (pre & post & ->).
  exists (PyStr.upper pre), (PyStr.upper post).
  rewrite upper_app by done. f_equal.
  rewrite is_ascii_app in Hh. apply andb_true_iff in Hh as [_ Hh].
  by apply upper_app.
Qed.

Lemma contains_wider (n pre h post : str) :
  PyStr.contains n h = true ->
  PyStr.contains n (pre ++ h ++ post) = true.
Proof.
  rewrite !contains_spec. intros (p & q & ->).
  exists (pre ++ p), (q ++ post). by rewrite <- !app_assoc.
Qed.

(** The order of [sorted] is total and transitive. *)
Lemma leb_total (s t : str) : PyStr.leb s t = true ∨ PyStr.leb t s = true.
Proof.
  revert t. induction s as [|a s IH]; intros [|b t]; simpl; auto.
  destruct (IH t) as [H|H]; rewrite H, ?andb_true_r.
  - destruct (N.lt_total a b) as [?|[->|?]].
    + left. apply orb_true_iff. left. by apply N.ltb_lt.
    + left. apply orb_true_iff. right. apply N.eqb_refl.
    + right. apply orb_true_iff. left. by apply N.ltb_lt.
  - destruct (N.lt_total a b) as [?|[->|?]].
    + left. apply orb_true_iff. left. by apply N.ltb_lt.
    + right. apply orb_true_iff. right. apply N.eqb_refl.
    + right. apply orb_true_iff. left. by apply N.ltb_lt.
Qed.

Lemma leb_trans (s t u : str) :
  PyStr.leb s t = true -> PyStr.leb t u = true -> PyStr.leb s u = true.
Proof.
  revert t u. induction s as [|a s IH]; intros [|b t] [|c u]; simpl; try done.
  rewrite !orb_true_iff, !andb_true_iff, !N.ltb_lt, !N.eqb_eq.
  intros [?|[-> Hst]] [?|[-> Htu]].
  - left. lia.
  - by left.
  - by left.
  - right. split; [done|]. by apply (IH t).
Qed.

Lemma leb_antisym (s t : str) :
  PyStr.leb s t = true -> PyStr.leb t s = true -> s = t.
Proof.
  revert t. induction s as [|a s IH]; intros [|b t]; simpl; try done.
  rewrite !orb_true_iff, !andb_true_iff, !N.ltb_lt, !N.eqb_eq.
  intros [?|[-> Hst]] [?|[? Hts]]; try lia. f_equal. by apply IH.
Qed.

Global Instance le_total : Total PyStr.le.
Proof. intros s t. apply leb_total. Qed.

Global Instance le_trans : Transitive PyStr.le.
Proof. intros s t u. apply leb_trans. Qed.

Global Instance le_antisym : AntiSymm (=) PyStr.le.
Proof. intros s t. apply leb_antisym. Qed.

End StringFacts.

(** ** Loops and traversals *)
Section Traversal.

Context {A : Type}.
Implicit Types (body : A -> Result unit) (l : list A).

Lemma for_each_ok body l :
  for_each body l = Ok tt <-> ∀ x, x ∈ l → body x = Ok tt.
Proof.
  induction l as [|y l IH]; simpl.
  - split; [intros _ x Hx; inversion Hx|done].
  - destruct (body y) as [[]|e] eqn:Hy; simpl.
    + rewrite IH. split.
      * intros Hl x [->|Hx]%elem_of_cons; auto.
      * intros Hl x Hx. apply Hl. by right.
    + split; [done|]. intros Hl.
      specialize (Hl y (list_elem_of_here _ _)). congruence.
Qed.

(** An exception of the loop is the exception of one of its rounds. *)
Lemma for_each_raise body l e :
  for_each body l = Raise e -> ∃ x, x ∈ l ∧ body x = Raise e.
Proof.
  induction l as [|y l IH]; simpl; [done|].
  destruct (body y) as [[]|e'] eqn:Hy; simpl.
  - intros (x & Hx & Hb)%IH. exists x. split; [by right|done].
  - intros [= ->]. exists y. split; [by left|done].
Qed.

(** A round that raises makes the loop raise. *)
Lemma for_each_raises body l x e :
  x ∈ l -> body x = Raise e -> ∃ e', for_each body l = Raise e'.
Proof.
  intros Hx Hb. destruct (for_each body l) as [[]|e'] eqn:Hl; [|by eexists].
  rewrite for_each_ok in Hl. specialize (Hl x Hx). congruence.
Qed.

End Traversal.

Section Trees.

Lemma size_unfold (e : exp.Expression) :
  exp.size e = S (sum_list_with exp.size (exp.args e)).
Proof.
  destruct e as [c t n q children]. reflexivity.
Qed.

Lemma nodes_unfold (e : exp.Expression) :
  Spec.nodes e = e :: concat (Spec.nodes <$> exp.args e).
Proof.
  destruct e as [c t n q children]. simpl. f_equal.
  induction children as [|x r IH]; simpl; [done|]. by rewrite IH.
Qed.

Lemma size_pos (e : exp.Expression) : 0 < exp.size e.
Proof. rewrite size_unfold. lia. Qed.

(** With enough fuel the queue is emptied: the traversal yields the
    nodes of every tree of the queue. *)
Lemma bfs_nodes (fuel : nat) (queue : list exp.Expression) :
  sum_list_with exp.size queue ≤ fuel ->
  exp.bfs fuel queue ≡ₚ concat (Spec.nodes <$> queue).
Proof.
  revert queue. induction fuel as [|fuel IH]; intros [|n rest] Hfuel; simpl;
    try done.
  - simpl in Hfuel. pose proof (size_pos n). lia.
  - rewrite IH.
    + rewrite fmap_app, concat_app, (nodes_unfold n). simpl.
      constructor. apply Permutation_app_comm.
    + simpl in Hfuel. rewrite size_unfold in Hfuel.
      rewrite sum_list_with_app. lia.
Qed.

(** [walk()] visits the nodes of the tree, each once. *)
Lemma walk_nodes (e : exp.Expression) : exp.walk e ≡ₚ Spec.nodes e.
Proof.
  unfold exp.walk. rewrite bfs_nodes; simpl; [|lia].
  by rewrite app_nil_r.
Qed.

Lemma elem_of_walk (n e : exp.Expression) :
  n ∈ exp.walk e <-> n ∈ Spec.nodes e.
Proof. by rewrite walk_nodes. Qed.

Lemma elem_of_find_all (c : exp.ExpClass) (n e : exp.Expression) :
  n ∈ exp.find_all c e <-> n ∈ Spec.nodes e ∧ exp.cls n = c.
Proof.
  unfold exp.find_all, exp.isinstance.
  rewrite list_elem_of_In, filter_In, <- list_elem_of_In, elem_of_walk.
  rewrite bool_decide_eq_true, list_elem_of_singleton. done.
Qed.

End Trees.

(** ** The checks of the validator *)
Section Checks.

Context {U : PyStr.Unicode}.

Import SQLValidator.
Implicit Types (self : t) (statement node : exp.Expression).

Lemma security_raise (msg : str) (e : Exception) :
  security msg = Raise e -> is_security e.
Proof. intros [= <-]. by eexists. Qed.

Local Ltac security_cases :=
  repeat match goal with
    | |- context [if ?b then _ else _] => destruct b
    | |- context [match ?o with Some _ => _ | None => _ end] => destruct o
    end;
  try discriminate; eauto using security_raise.

(** Each check raises nothing but a security violation. *)
Lemma statement_type_raise self statement sql e :
  _check_statement_type self statement sql = Raise e -> is_security e.
Proof. unfold _check_statement_type. security_cases. Qed.

Lemma blocked_functions_raise self statement e :
  _check_blocked_functions self statement = Raise e -> is_security e.
Proof.
  intros (node & _ & Hb)%for_each_raise. revert Hb. simpl. security_cases.
Qed.

Lemma blocked_tables_raise self statement e :
  _check_blocked_tables self statement = Raise e -> is_security e.
Proof.
  unfold _check_blocked_tables. case_bool_decide; [done|].
  intros (node & _ & Hb)%for_each_raise. revert Hb. simpl. security_cases.
Qed.

Lemma check_column_raise self node e :
  check_column self node = Raise e -> is_security e.
Proof. unfold check_column. security_cases. Qed.

Lemma blocked_columns_raise self statement e :
  _check_blocked_columns self statement = Raise e -> is_security e.
Proof.
  unfold _check_blocked_columns. case_bool_decide; [done|].
  intros (node & _ & Hb)%for_each_raise. eauto using check_column_raise.
Qed.

(** A function call whose lower-cased name is denied stops the walk. *)
Lemma blocked_function_found self statement node :
  node ∈ Spec.nodes statement -> exp.is_func node = true ->
  PyStr.lower (exp.name node) ∈ blocked_functions self ->
  ∃ e, _check_blocked_functions self statement = Raise e.
Proof.
  intros Hin Hf Hb. unfold _check_blocked_functions.
  eapply for_each_raises; [by apply elem_of_walk|].
  simpl. rewrite Hf. by rewrite bool_decide_eq_true_2.
Qed.

Lemma blocked_table_found self statement node :
  node ∈ Spec.nodes statement -> exp.cls node = exp.Table ->
  PyStr.lower (exp.name node) ∈ blocked_tables self ->
  ∃ e, _check_blocked_tables self statement = Raise e.
Proof.
  intros Hin Hc Hb. unfold _check_blocked_tables.
  rewrite bool_decide_eq_false_2 by set_solver.
  eapply for_each_raises; [by apply elem_of_find_all|].
  simpl. by rewrite bool_decide_eq_true_2.
Qed.

Lemma check_column_ok self node :
  check_column self node = Ok tt <->
  (PyStr.lower (exp.name node) ∉ blocked_columns self)
  ∧ (exp.table node ≠ "" → PyStr.lower (exp.table node) ≠ "" →
     (PyStr.lower (exp.table node) ++ "." ++ PyStr.lower (exp.name node))
       ∉ blocked_columns self).
Proof.
  unfold check_column, security.
  case_bool_decide as Hbare; [split; [done|tauto]|].
  destruct (exp.table node) as [|c r] eqn:Ht; simpl; [tauto|].
  destruct (PyStr.lower (c :: r)) as [|c' r'] eqn:Hl; simpl; [tauto|].
  case_bool_decide as Hq; [|tauto].
  split; [done|]. intros [_ Hno]. by destruct Hno.
Qed.

(** The column check passes exactly when no column reference of the
    statement is denied. *)
Lemma blocked_columns_ok self statement :
  _check_blocked_columns self statement = Ok tt <->
  ∀ column, column ∈ Spec.nodes statement →
            ¬ Spec.blocked_reference self column.
Proof.
  unfold _check_blocked_columns, Spec.blocked_reference.
  case_bool_decide as Hempty.
  - rewrite Hempty. split; [|done]. intros _ column _ [_ [H|(_ & _ & H)]];
      by apply not_elem_of_empty in H.
  - rewrite for_each_ok. split.
    + intros Hall column Hin [Hc Hb].
      assert (check_column self column = Ok tt) as Hok
        by (apply Hall; by apply elem_of_find_all).
      apply check_column_ok in Hok as [Hbare Hq].
      destruct Hb as [?|(? & ? & ?)]; [done|by apply Hq].
    + intros Hnone column [Hin Hc]%elem_of_find_all.
      apply check_column_ok. specialize (Hnone column Hin). tauto.
Qed.

Lemma blocked_column_found self statement column :
  column ∈ Spec.nodes statement -> Spec.blocked_reference self column ->
  ∃ e, _check_blocked_columns self statement = Raise e.
Proof.
  intros Hin Hb.
  destruct (_check_blocked_columns self statement) as [[]|e] eqn:Hc;
    [|by eexists].
  pose proof (proj1 (blocked_columns_ok self statement) Hc) as Hnone.
  by destruct (Hnone column Hin).
Qed.

(** On an opaque tree the three walks find nothing. *)
Lemma opaque_checks self statement :
  Spec.opaque statement ->
  _check_blocked_functions self statement = Ok tt
  ∧ _check_blocked_tables self statement = Ok tt
  ∧ _check_blocked_columns self statement = Ok tt.
Proof.
  intros Hop. split_and!.
  - apply for_each_ok. intros node Hin%elem_of_walk. simpl.
    apply Hop in Hin. unfold Spec.is_reference in Hin.
    apply orb_false_iff in Hin as [-> _]. done.
  - unfold _check_blocked_tables. case_bool_decide; [done|].
    apply for_each_ok. intros node [Hin Hc]%elem_of_find_all.
    apply Hop in Hin. unfold Spec.is_reference, exp.isinstance in Hin.
    apply orb_false_iff in Hin as [_ Hin].
    apply bool_decide_eq_false in Hin. rewrite Hc in Hin. set_solver.
  - apply blocked_columns_ok. intros column Hin [Hc _].
    apply Hop in Hin. unfold Spec.is_reference, exp.isinstance in Hin.
    apply orb_false_iff in Hin as [_ Hin].
    apply bool_decide_eq_false in Hin. rewrite Hc in Hin. set_solver.
Qed.

(** The statement-kind check on a statement of a forbidden kind. *)
Lemma forbidden_kind_type_check self statement sql k :
  Spec.has_kind statement k ->
  ∃ msg, _check_statement_type self statement sql
         = Raise (SecurityViolationError msg).
Proof.
  destruct statement as [c this name table children].
  intros [Hk|[Hc Hkw]]; simpl in *.
  - unfold _check_statement_type, exp.isinstance, exp.key, security.
    destruct k; simplify_eq/=; eexists; reflexivity.
  - subst c. unfold _check_statement_type, exp.isinstance, security.
    simpl exp.cls. simpl exp.this.
    rewrite bool_decide_eq_true_2 by set_solver.
    destruct this as [|a r]; [by destruct k|].
    simpl PyStr.truthy. cbv iota. rewrite Hkw.
    rewrite bool_decide_eq_false_2 by (by destruct k).
    by eexists.
Qed.

(** The statement-kind check on an EXPLAIN statement. *)
Lemma explain_type_check self statement sql :
  Spec.is_explain statement ->
  _check_statement_type self statement sql =
  match explain_policy self with
  | DISABLED => security "EXPLAIN statements are not allowed"
  | EXPLAIN_ONLY =>
      if PyStr.contains "ANALYZE" (PyStr.upper sql)
      then security "EXPLAIN ANALYZE is not allowed" else Ok tt
  | EXPLAIN_ANALYZE => Ok tt
  end.
Proof.
  destruct statement as [c this name table children].
  intros [Hc Hkw]; simpl in *. subst c.
  unfold _check_statement_type, exp.isinstance.
  simpl exp.cls. simpl exp.this.
  rewrite bool_decide_eq_true_2 by set_solver.
  destruct this as [|a r]; [done|].
  simpl PyStr.truthy. cbv iota. rewrite Hkw.
  rewrite bool_decide_eq_true_2 by done.
  by destruct (explain_policy self).
Qed.

Lemma checks_ok self statement sql :
  checks self statement sql = Ok tt <->
  _check_statement_type self statement sql = Ok tt
  ∧ _check_blocked_functions self statement = Ok tt
  ∧ _check_blocked_tables self statement = Ok tt
  ∧ _check_blocked_columns self statement = Ok tt.
Proof.
  unfold checks.
  destruct (_check_statement_type self statement sql) as [[]|?];
    simpl; [|split; [done|by intros [? _]]].
  destruct (_check_blocked_functions self statement) as [[]|?];
    simpl; [|split; [done|by intros (_ & ? & _)]].
  destruct (_check_blocked_tables self statement) as [[]|?];
    simpl; [|split; [done|by intros (_ & _ & ? & _)]].
  tauto.
Qed.

Lemma checks_raise self statement sql e :
  checks self statement sql = Raise e -> is_security e.
Proof.
  unfold checks.
  destruct (_check_statement_type self statement sql) as [[]|?] eqn:H1;
    simpl; [|intros [= <-]; eauto using statement_type_raise].
  destruct (_check_blocked_functions self statement) as [[]|?] eqn:H2;
    simpl; [|intros [= <-]; eauto using blocked_functions_raise].
  destruct (_check_blocked_tables self statement) as [[]|?] eqn:H3;
    simpl; [|intros [= <-]; eauto using blocked_tables_raise].
  apply blocked_columns_raise.
Qed.

End Checks.

(** ** The validator as a whole *)
Section Validator.

Context {U : PyStr.Unicode}.

Import SQLValidator.

Variable parse_one : str -> Result exp.Expression.
Variable parse : str -> Result (list (option exp.Expression)).

Implicit Types (self : t) (statement node : exp.Expression) (sql : str).

(** [validate_or_raise] on a text that [parse_one] accepts. *)
Lemma validate_or_raise_parsed self sql statement :
  parse_one sql = Ok statement ->
  validate_or_raise parse_one parse self sql =
  if Spec.whitespace_only sql then Raise (SQLParseError "SQL query is empty")
  else
    parsed ← parse sql;
    if bool_decide (1 < length parsed)
    then security "Multiple SQL statements are not allowed"
    else checks self statement sql.
Proof.
  intros Hp. unfold validate_or_raise. by rewrite empty_test, Hp.
Qed.

(** A single parsed statement is accepted exactly when the four checks
    pass. *)
Lemma validate_or_raise_single self sql statement parsed :
  Spec.whitespace_only sql = false ->
  parse_one sql = Ok statement -> parse sql = Ok parsed ->
  length parsed ≤ 1 ->
  validate_or_raise parse_one parse self sql = checks self statement sql.
Proof.
  intros Hw Hp Hps Hlen.
  rewrite (validate_or_raise_parsed _ _ _ Hp), Hw, Hps. simpl.
  rewrite bool_decide_eq_false_2 by lia. done.
Qed.

(** A statement that one of the checks refuses is rejected; the
    exception is a security violation as soon as the text is not blank
    and [sqlglot.parse] returns. *)
Lemma rejected_by_checks self sql statement :
  parse_one sql = Ok statement ->
  checks self statement sql ≠ Ok tt ->
  ∃ e, validate_or_raise parse_one parse self sql = Raise e
       ∧ (Spec.whitespace_only sql = false →
          (∃ parsed, parse sql = Ok parsed) → is_security e).
Proof.
  intros Hp Hc. rewrite (validate_or_raise_parsed _ _ _ Hp).
  destruct (Spec.whitespace_only sql); [eexists; split; [done|done]|].
  destruct (parse sql) as [parsed|e]; simpl.
  - case_bool_decide.
    + eexists. split; [done|]. intros _ _. by eexists.
    + destruct (checks self statement sql) as [[]|e] eqn:Hck; [done|].
      exists e. split; [done|]. intros _ _. eauto using checks_raise.
  - exists e. split; [done|]. by intros _ [parsed [=]].
Qed.

(** [validate] turns a validator exception into [(False, message)]. *)
Lemma validate_security self sql msg :
  validate_or_raise parse_one parse self sql
    = Raise (SecurityViolationError msg) ->
  validate parse_one parse self sql = Ok (false, Some msg).
Proof. unfold validate. by intros ->. Qed.

Lemma validate_not_accepted self sql e m :
  validate_or_raise parse_one parse self sql = Raise e ->
  validate parse_one parse self sql ≠ Ok (true, m).
Proof. unfold validate. intros ->. by destruct e. Qed.

End Validator.

(** ** Statement kinds, single statements, deny-lists *)
Section ValidatorClaims.

Context {U : PyStr.Unicode}.

Import SQLValidator.

Variable parse_one : str -> Result exp.Expression.
Variable parse : str -> Result (list (option exp.Expression)).

Implicit Types (self : t) (statement node : exp.Expression) (sql : str).

Local Abbreviation validate_or_raise := (validate_or_raise parse_one parse).
Local Abbreviation validate := (validate parse_one parse).

(** C1. A text that [parse_one] turns into a statement of kind INSERT,
    UPDATE, DELETE, CREATE, DROP, ALTER, GRANT, REVOKE, TRUNCATE, VACUUM
    or COPY is never accepted: [validate_or_raise] raises and [validate]
    does not answer [True]. The text of such a statement is not blank
    and [sqlglot.parse] returns its statements: the exception is then a
    [SecurityViolationError] and [validate] answers [False] with its
    message. *)
Theorem forbidden_kinds_rejected self sql statement k :
  parse_one sql = Ok statement ->
  Spec.has_kind statement k ->
  (∃ e, validate_or_raise self sql = Raise e)
  ∧ (∀ m, validate self sql ≠ Ok (true, m))
  ∧ (Spec.whitespace_only sql = false →
     (∃ parsed, parse sql = Ok parsed) →
     ∃ msg, validate_or_raise self sql = Raise (SecurityViolationError msg)
            ∧ validate self sql = Ok (false, Some msg)).
Proof.
  intros Hp Hk.
  destruct (forbidden_kind_type_check self statement sql k Hk) as [msg Ht].
  assert (checks self statement sql ≠ Ok tt) as Hno.
  { rewrite checks_ok. intros [Hok _]. congruence. }
  destruct (rejected_by_checks parse_one parse self sql statement Hp Hno)
    as (e & He & Hsec).
  split_and!.
  - by exists e.
  - intros m. by eapply validate_not_accepted.
  - intros Hw Hps. destruct (Hsec Hw Hps) as [msg' ->].
    exists msg'. split; [done|]. by apply validate_security.
Qed.

(** C3, as the code has it. [validate_or_raise] fails on every empty
    or white-space-only text, with "SQL query is empty", and on every
    text for which the parser yields more than one statement. The raw
    text is not searched for a semicolon. *)
Theorem blank_or_multiple_rejected self sql :
  Spec.whitespace_only sql = true
  ∨ (∃ parsed, parse sql = Ok parsed ∧ 1 < length parsed) ->
  ∃ e, validate_or_raise self sql = Raise e
       ∧ (Spec.whitespace_only sql = true →
          e = SQLParseError "SQL query is empty")
       ∧ (Spec.whitespace_only sql = false →
          (∃ statement, parse_one sql = Ok statement) →
          e = SecurityViolationError "Multiple SQL statements are not allowed").
Proof.
  unfold SQLValidator.validate_or_raise. rewrite empty_test.
  intros [Hw|(parsed & Hps & Hlen)].
  - rewrite Hw. eexists. split_and!; [done|done|congruence].
  - destruct (Spec.whitespace_only sql).
    { eexists. split_and!; [done|done|congruence]. }
    destruct (parse_one sql) as [statement|e].
    + rewrite Hps. simpl. rewrite bool_decide_eq_true_2 by done.
      eexists. split_and!; [done|congruence|done].
    + eexists. split_and!; [done|congruence|]. by intros _ [statement [=]].
Qed.

(** X19. On the nodes of the tree, the deny-lists are compared without
    regard to case: a text whose statement has a function node, a table
    node or a column node whose ASCII [name] (for a column, also its
    [table.name]) an entry of the configured lists reads up to case is
    rejected, whatever the case of the entry and of the name; the
    exception is a security violation as soon as the text is not blank
    and [sqlglot.parse] returns. *)
Theorem deny_lists_ignore_case cfg tables columns policy sql statement node :
  parse_one sql = Ok statement ->
  node ∈ Spec.nodes statement ->
  Spec.denied cfg tables columns node ->
  ∃ e, validate_or_raise (init cfg tables columns policy) sql = Raise e
       ∧ (Spec.whitespace_only sql = false →
          (∃ parsed, parse sql = Ok parsed) → is_security e).
Proof.
  intros Hp Hin Hden. apply (rejected_by_checks _ _ _ _ statement Hp).
  rewrite checks_ok. intros (_ & Hf & Ht & Hc).
  set (self := init cfg tables columns policy) in *.
  assert (∀ entries entry, entry ∈ default [] entries →
            PyStr.lower entry ∈ lowered entries) as Hlow.
  { intros entries entry He. unfold lowered.
    apply elem_of_list_to_set, list_elem_of_fmap. by exists entry. }
  destruct Hden as [[Hfunc (entry & He & Ha & Hm)]
                   |[[Hcls (entry & He & Ha & Hm)]|[Hcls (entry & He & Hm)]]].
  - destruct (blocked_function_found self statement node Hin Hfunc)
      as [e Hr]; [|congruence].
    rewrite (lower_case_eq _ _ Ha Hm). by apply (Hlow (Some _)).
  - destruct (blocked_table_found self statement node Hin Hcls)
      as [e Hr]; [|congruence].
    rewrite (lower_case_eq _ _ Ha Hm). by apply Hlow.
  - destruct (blocked_column_found self statement node Hin)
      as [e Hr]; [|congruence].
    split; [done|]. destruct Hm as [[Ha Hm]|[Hq [Ha Hm]]].
    + left. rewrite (lower_case_eq _ _ Ha Hm). by apply Hlow.
    + right. split; [done|].
      apply (lower_case_eq _ _ Ha) in Hm.
      rewrite lower_app in Hm by done.
      rewrite is_ascii_app in Ha. apply andb_true_iff in Ha as [Hat Ha].
      rewrite (lower_app ".") in Hm by done.
      rewrite (lower_ascii ".") in Hm by done.
      change (PyStr.lower_char <$> ".") with "." in Hm.
      split.
      * rewrite (lower_ascii _ Hat). by destruct (exp.table node).
      * rewrite Hm. by apply Hlow.
Qed.

(** C6. The column check refuses a statement exactly when one of its
    column references is denied, by its bare name or by its qualified
    [table.column] name, both lower-cased: it raises a security
    violation when there is such a reference and passes when there is
    none; and a text whose statement has such a reference is rejected
    by [validate_or_raise]. *)
Theorem blocked_columns_rejected self statement :
  ((∃ column, column ∈ Spec.nodes statement
              ∧ Spec.blocked_reference self column) →
   ∃ msg, _check_blocked_columns self statement
          = Raise (SecurityViolationError msg))
  ∧ ((∀ column, column ∈ Spec.nodes statement →
                ¬ Spec.blocked_reference self column) →
     _check_blocked_columns self statement = Ok tt)
  ∧ (∀ sql column,
       parse_one sql = Ok statement →
       column ∈ Spec.nodes statement →
       Spec.blocked_reference self column →
       ∃ e, validate_or_raise self sql = Raise e).
Proof.
  split_and!.
  - intros (column & Hin & Hb).
    destruct (blocked_column_found self statement column Hin Hb) as [e He].
    destruct (blocked_columns_raise _ _ _ He) as [msg ->]. by exists msg.
  - apply blocked_columns_ok.
  - intros sql column Hp Hin Hb.
    destruct (rejected_by_checks parse_one parse self sql statement Hp)
      as (e & He & _); [|by exists e].
    rewrite checks_ok. intros (_ & _ & _ & Hc).
    destruct (blocked_column_found self statement column Hin Hb).
    congruence.
Qed.

End ValidatorClaims.

(** ** The validator on concrete texts *)

Section ValidatorClaimsExamples.

#[local] Existing Instance Demo.unicode.

(** [DELETE FROM users] is refused under every policy, here under the
    most permissive one. *)
Lemma forbidden_kinds_rejected_witness :
  ∃ msg,
    SQLValidator.validate_or_raise Demo.parse_one Demo.parse
      (Demo.validator EXPLAIN_ANALYZE) "DELETE FROM users"
    = Raise (SecurityViolationError msg)
    ∧ SQLValidator.validate Demo.parse_one Demo.parse
        (Demo.validator EXPLAIN_ANALYZE) "DELETE FROM users"
      = Ok (false, Some msg).
Proof.
  destruct (forbidden_kinds_rejected Demo.parse_one Demo.parse
              (Demo.validator EXPLAIN_ANALYZE) "DELETE FROM users"
              (exp.Node exp.Delete "users" "" "" [Demo.table_ref "users"])
              Spec.DELETE eq_refl (or_introl eq_refl)) as (_ & _ & H).
  apply H; [reflexivity|]. eexists. reflexivity.
Defined.

(** Two statements in one text; and a text made of a no-break space
    (U+00A0), an em space (U+2003) and a line feed. *)
Lemma blank_or_multiple_rejected_witness :
  SQLValidator.validate_or_raise Demo.parse_one Demo.parse
    (Demo.validator EXPLAIN_ONLY) "SELECT 1; SELECT 2"
  = Raise (SecurityViolationError "Multiple SQL statements are not allowed")
  ∧ SQLValidator.validate_or_raise Demo.parse_one Demo.parse
      (Demo.validator EXPLAIN_ONLY) [160; 8195; 10]%N
    = Raise (SQLParseError "SQL query is empty").
Proof.
  split.
  - destruct (blank_or_multiple_rejected Demo.parse_one Demo.parse
                (Demo.validator EXPLAIN_ONLY) "SELECT 1; SELECT 2")
      as (e & -> & _ & H).
    + right. eexists. split; [reflexivity|]. simpl. lia.
    + f_equal. apply H; [reflexivity|]. eexists. reflexivity.
  - destruct (blank_or_multiple_rejected Demo.parse_one Demo.parse
                (Demo.validator EXPLAIN_ONLY) [160; 8195; 10]%N)
      as (e & -> & H & _).
    + left. reflexivity.
    + f_equal. apply H. reflexivity.
Defined.

(** C3 as the specification states it fails on [SELECT 1;]: the text has
    a semicolon outside any string literal, the parser yields one
    statement for it, and the validator accepts it. *)
Lemma semicolon_accepted :
  Spec.separator_outside_literals false "SELECT 1;" = true
  ∧ Demo.parse "SELECT 1;" = Ok [Some (Demo.select [Demo.literal "1"])]
  ∧ SQLValidator.validate_or_raise Demo.parse_one Demo.parse
      (Demo.validator EXPLAIN_ONLY) "SELECT 1;" = Ok tt.
Proof. split_and!; vm_compute; reflexivity. Qed.

(** [PG_SLEEP] in the text, [pg_sleep] in the configuration. *)
Lemma deny_lists_ignore_case_witness :
  ∃ e,
    SQLValidator.validate_or_raise Demo.parse_one Demo.parse
      (Demo.validator EXPLAIN_ONLY) "SELECT PG_SLEEP(1)" = Raise e
    ∧ is_security e.
Proof.
  destruct (deny_lists_ignore_case Demo.parse_one Demo.parse
              Demo.security (Some (cfg_blocked_tables Demo.security))
              (Some (cfg_blocked_columns Demo.security)) EXPLAIN_ONLY
              "SELECT PG_SLEEP(1)"
              (Demo.select [Demo.anonymous "PG_SLEEP" [Demo.literal "1"]])
              (Demo.anonymous "PG_SLEEP" [Demo.literal "1"]))
    as (e & He & Hsec).
  - reflexivity.
  - simpl. set_solver.
  - left. split; [reflexivity|]. exists "pg_sleep". split.
    + simpl. set_solver.
    + split; [reflexivity|].
      apply (proj2 (case_eq_lower "PG_SLEEP" "pg_sleep" eq_refl eq_refl)).
      reflexivity.
  - exists e. split; [exact He|]. apply Hsec; [reflexivity|].
    eexists. reflexivity.
Defined.

(** [Users.Password] in the text and in the configuration,
    [users.password] in the set of the validator; and a column [token]
    written with the Kelvin sign U+212A for its [k], with [token] in the
    configuration. *)
Lemma blocked_columns_rejected_witness :
  (∃ msg,
     SQLValidator._check_blocked_columns (Demo.validator EXPLAIN_ONLY)
       (Demo.select [Demo.column_ref "Users" "Password"; Demo.from "Users"])
     = Raise (SecurityViolationError msg))
  ∧ (∃ msg,
       SQLValidator._check_blocked_columns
         (SQLValidator.init Demo.security None (Some ["token"]) DISABLED)
         (Demo.select [Demo.column_ref "" [116; 111; 8490; 101; 110]%N;
                       Demo.from "users"])
       = Raise (SecurityViolationError msg)).
Proof.
  split.
  - apply (blocked_columns_rejected Demo.parse_one Demo.parse).
    exists (Demo.column_ref "Users" "Password"). split.
    + simpl. set_solver.
    + split; [reflexivity|]. right. split_and!; [done|done|].
      vm_compute. reflexivity.
  - apply (blocked_columns_rejected Demo.parse_one Demo.parse).
    exists (Demo.column_ref "" [116; 111; 8490; 101; 110]%N). split.
    + simpl. set_solver.
    + split; [reflexivity|]. left. vm_compute. reflexivity.
Defined.

(** C4 fails on a function that the parser knows. With [lower] in the
    function deny-list, the text [SELECT LOWER(name) FROM users] calls a
    function that the entry names, up to case; the node of the call is
    of the class [Lower], its [name] is empty, and the text is
    accepted. *)
Theorem typed_function_not_denied :
  let cfg := {| cfg_explain_policy := DISABLED;
                cfg_blocked_tables := [];
                cfg_blocked_columns := [];
                cfg_blocked_functions := ["lower"] |} in
  let self := SQLValidator.init cfg None None DISABLED in
  let call := Demo.builtin "Lower" (Demo.column_ref "" "name") in
  Demo.parse_one "SELECT LOWER(name) FROM users"
  = Ok (Demo.select [call; Demo.from "users"])
  ∧ exp.is_func call = true
  ∧ PyStr.lower "LOWER" ∈ SQLValidator.blocked_functions self
  ∧ exp.name call = ""
  ∧ SQLValidator._check_blocked_functions self
      (Demo.select [call; Demo.from "users"]) = Ok tt
  ∧ SQLValidator.validate_or_raise Demo.parse_one Demo.parse self
      "SELECT LOWER(name) FROM users" = Ok tt
  ∧ SQLValidator.validate Demo.parse_one Demo.parse self
      "SELECT LOWER(name) FROM users" = Ok (true, None).
Proof. split_and!; vm_compute; reflexivity. Qed.

End ValidatorClaimsExamples.

(** ** EXPLAIN *)
Section ExplainClaims.

Context {U : PyStr.Unicode}.

Import SQLValidator.

Variable parse_one : str -> Result exp.Expression.
Variable parse : str -> Result (list (option exp.Expression)).

Implicit Types (self : t) (statement : exp.Expression) (sql : str).

Local Abbreviation validate_or_raise := (validate_or_raise parse_one parse).

(** C2, as the code has it. For a text whose single statement is an
    EXPLAIN command: under DISABLED it is rejected; under EXPLAIN_ONLY it
    is rejected when the upper-cased text contains "ANALYZE" anywhere,
    and accepted when the upper-cased text contains neither "ANALYZE"
    nor "ANALYSE"; under EXPLAIN_ANALYZE it is accepted. *)
Theorem explain_policy_decides self sql statement parsed :
  Spec.whitespace_only sql = false ->
  parse_one sql = Ok statement ->
  parse sql = Ok parsed -> length parsed ≤ 1 ->
  Spec.is_explain statement ->
  Spec.opaque statement ->
  match explain_policy self with
  | DISABLED =>
      validate_or_raise self sql
      = Raise (SecurityViolationError "EXPLAIN statements are not allowed")
  | EXPLAIN_ONLY =>
      (PyStr.contains "ANALYZE" (PyStr.upper sql) = true →
       validate_or_raise self sql
       = Raise (SecurityViolationError "EXPLAIN ANALYZE is not allowed"))
      ∧ (PyStr.contains "ANALYZE" (PyStr.upper sql) = false →
         PyStr.contains "ANALYSE" (PyStr.upper sql) = false →
         validate_or_raise self sql = Ok tt)
  | EXPLAIN_ANALYZE => validate_or_raise self sql = Ok tt
  end.
Proof.
  intros Hw Hp Hps Hlen Hex Hop.
  rewrite (validate_or_raise_single _ _ _ _ _ _ Hw Hp Hps Hlen).
  destruct (opaque_checks self statement Hop) as (Hf & Ht & Hc).
  unfold checks. rewrite (explain_type_check _ _ _ Hex), Hf, Ht, Hc.
  destruct (explain_policy self); [done| |done].
  split; [by intros ->|by intros -> _].
Qed.

(** C10. When the policy lets an EXPLAIN through, nothing else is
    checked: for every validator, whatever its deny-lists, and every
    text whose single statement is an opaque EXPLAIN command, the
    statement-kind check returns at once and the text is accepted, under
    EXPLAIN_ANALYZE always and under EXPLAIN_ONLY when the upper-cased
    text has no "ANALYZE" in it. What follows the keyword is not
    examined. *)
Theorem explain_inner_query_unchecked self sql statement parsed :
  Spec.whitespace_only sql = false ->
  parse_one sql = Ok statement ->
  parse sql = Ok parsed -> length parsed ≤ 1 ->
  Spec.is_explain statement ->
  Spec.opaque statement ->
  explain_policy self = EXPLAIN_ANALYZE
  ∨ (explain_policy self = EXPLAIN_ONLY
     ∧ PyStr.contains "ANALYZE" (PyStr.upper sql) = false) ->
  _check_statement_type self statement sql = Ok tt
  ∧ _check_blocked_functions self statement = Ok tt
  ∧ _check_blocked_tables self statement = Ok tt
  ∧ _check_blocked_columns self statement = Ok tt
  ∧ validate_or_raise self sql = Ok tt.
Proof.
  intros Hw Hp Hps Hlen Hex Hop Hpol.
  assert (_check_statement_type self statement sql = Ok tt) as Hty.
  { rewrite (explain_type_check _ _ _ Hex).
    by destruct Hpol as [->|[-> ->]]. }
  destruct (opaque_checks self statement Hop) as (Hf & Ht & Hc).
  split_and!; try done.
  rewrite (validate_or_raise_single _ _ _ _ _ _ Hw Hp Hps Hlen).
  by apply checks_ok.
Qed.

End ExplainClaims.

Section ExplainClaimsExamples.

#[local] Existing Instance Demo.unicode.

(** An EXPLAIN with the option, under the policy that forbids it and
    under the policy that permits it; and a plain EXPLAIN under the
    first. *)
Lemma explain_policy_decides_witness :
  SQLValidator.validate_or_raise Demo.parse_one Demo.parse
    (Demo.validator EXPLAIN_ONLY) "EXPLAIN ANALYZE SELECT 1"
  = Raise (SecurityViolationError "EXPLAIN ANALYZE is not allowed")
  ∧ SQLValidator.validate_or_raise Demo.parse_one Demo.parse
      (Demo.validator EXPLAIN_ANALYZE) "EXPLAIN ANALYZE SELECT 1" = Ok tt
  ∧ SQLValidator.validate_or_raise Demo.parse_one Demo.parse
      (Demo.validator EXPLAIN_ONLY) "EXPLAIN SELECT 1" = Ok tt.
Proof.
  assert (∀ rest, Spec.opaque (Demo.command "EXPLAIN" rest)) as Hopaque.
  { intros [|c rest] n Hn; simpl in Hn; set_unfold;
      [by destruct Hn as [->|[]]|by destruct Hn as [->|[->|[]]]]. }
  split_and!.
  - apply (explain_policy_decides Demo.parse_one Demo.parse
             (Demo.validator EXPLAIN_ONLY) "EXPLAIN ANALYZE SELECT 1"
             (Demo.command "EXPLAIN" "ANALYZE SELECT 1")
             [Some (Demo.command "EXPLAIN" "ANALYZE SELECT 1")]);
      [reflexivity|reflexivity|reflexivity|simpl; lia|split; reflexivity
      |apply Hopaque|reflexivity].
  - apply (explain_policy_decides Demo.parse_one Demo.parse
             (Demo.validator EXPLAIN_ANALYZE) "EXPLAIN ANALYZE SELECT 1"
             (Demo.command "EXPLAIN" "ANALYZE SELECT 1")
             [Some (Demo.command "EXPLAIN" "ANALYZE SELECT 1")]);
      [reflexivity|reflexivity|reflexivity|simpl; lia|split; reflexivity
      |apply Hopaque].
  - apply (explain_policy_decides Demo.parse_one Demo.parse
             (Demo.validator EXPLAIN_ONLY) "EXPLAIN SELECT 1"
             (Demo.command "EXPLAIN" "SELECT 1")
             [Some (Demo.command "EXPLAIN" "SELECT 1")]);
      [reflexivity|reflexivity|reflexivity|simpl; lia|split; reflexivity
      |apply Hopaque|reflexivity|reflexivity].
Defined.

(** C2 as the specification states it fails under EXPLAIN_ONLY on an
    EXPLAIN that does not ask for the ANALYZE option but names a table
    [analyze_log]: it is an EXPLAIN statement, alone in its text, and it
    is rejected. *)
Lemma explain_without_analyze_rejected :
  Spec.has_analyze_option "EXPLAIN SELECT * FROM analyze_log" = false
  ∧ Demo.parse "EXPLAIN SELECT * FROM analyze_log"
    = Ok [Some (Demo.command "EXPLAIN" "SELECT * FROM analyze_log")]
  ∧ Spec.is_explain (Demo.command "EXPLAIN" "SELECT * FROM analyze_log")
  ∧ SQLValidator.validate_or_raise Demo.parse_one Demo.parse
      (Demo.validator EXPLAIN_ONLY) "EXPLAIN SELECT * FROM analyze_log"
    = Raise (SecurityViolationError "EXPLAIN ANALYZE is not allowed").
Proof. split_and!; [| |split|]; vm_compute; reflexivity. Qed.

(** The other spelling of the option, under which PostgreSQL runs the
    statement too: the test of the validator does not see it, and
    [EXPLAIN ANALYSE SELECT 1] is accepted under EXPLAIN_ONLY. *)
Lemma explain_analyse_accepted :
  Spec.has_analyze_option "EXPLAIN ANALYSE SELECT 1" = true
  ∧ PyStr.contains "ANALYZE" (PyStr.upper "EXPLAIN ANALYSE SELECT 1") = false
  ∧ SQLValidator.validate_or_raise Demo.parse_one Demo.parse
      (Demo.validator EXPLAIN_ONLY) "EXPLAIN ANALYSE SELECT 1" = Ok tt.
Proof. split_and!; vm_compute; reflexivity. Qed.

(** [EXPLAIN DELETE FROM users] and an EXPLAIN of a query that uses a
    denied function, a denied column and a denied table are accepted,
    while the DELETE and the query on their own are refused. *)
Lemma explain_inner_query_unchecked_witness :
  SQLValidator.validate_or_raise Demo.parse_one Demo.parse
    (Demo.validator EXPLAIN_ONLY) "EXPLAIN DELETE FROM users" = Ok tt
  ∧ SQLValidator.validate_or_raise Demo.parse_one Demo.parse
      (Demo.validator EXPLAIN_ONLY)
      "EXPLAIN SELECT pg_sleep(10), secret FROM audit_log" = Ok tt
  ∧ SQLValidator.validate_or_raise Demo.parse_one Demo.parse
      (Demo.validator EXPLAIN_ONLY) "DELETE FROM users"
    = Raise (SecurityViolationError "Statement type 'DELETE' is not allowed")
  ∧ SQLValidator.validate_or_raise Demo.parse_one Demo.parse
      (Demo.validator EXPLAIN_ONLY) "SELECT pg_sleep(10), secret FROM audit_log"
    = Raise (SecurityViolationError "Function 'pg_sleep' is not allowed").
Proof.
  split_and!; [| |vm_compute; reflexivity|vm_compute; reflexivity].
  - apply (explain_inner_query_unchecked Demo.parse_one Demo.parse
             (Demo.validator EXPLAIN_ONLY) "EXPLAIN DELETE FROM users"
             (Demo.command "EXPLAIN" "DELETE FROM users")
             [Some (Demo.command "EXPLAIN" "DELETE FROM users")]);
      [reflexivity|reflexivity|reflexivity|simpl; lia|split; reflexivity| |].
    + intros n Hn. simpl in Hn. set_unfold. by destruct Hn as [->|[->|[]]].
    + right. split; reflexivity.
  - apply (explain_inner_query_unchecked Demo.parse_one Demo.parse
             (Demo.validator EXPLAIN_ONLY)
             "EXPLAIN SELECT pg_sleep(10), secret FROM audit_log"
             (Demo.command "EXPLAIN" "SELECT pg_sleep(10), secret FROM audit_log")
             [Some (Demo.command "EXPLAIN"
                      "SELECT pg_sleep(10), secret FROM audit_log")]);
      [reflexivity|reflexivity|reflexivity|simpl; lia|split; reflexivity| |].
    + intros n Hn. simpl in Hn. set_unfold. by destruct Hn as [->|[->|[]]].
    + right. split; reflexivity.
Defined.

End ExplainClaimsExamples.

(** ** Normal form and table names *)
Section Tables.

Context {U : PyStr.Unicode}.

Import SQLValidator.

Variable parse_one : str -> Result exp.Expression.
Variable parse : str -> Result (list (option exp.Expression)).
Variable to_sql : exp.Expression -> Result str.

Implicit Types (self : t) (statement : exp.Expression) (sql : str).

Local Abbreviation validate_or_raise := (validate_or_raise parse_one parse).
Local Abbreviation normalize_sql := (normalize_sql parse_one to_sql).
Local Abbreviation extract_tables := (extract_tables parse_one).

(** The set that [extract_tables] fills holds the table names of the
    statement. *)
Lemma elem_of_tables statement (x : str) :
  x ∈ (list_to_set (exp.name <$> exp.find_all exp.Table statement)
        : gset str)
  <-> x ∈ Spec.table_names statement.
Proof.
  unfold Spec.table_names.
  rewrite elem_of_list_to_set, !list_elem_of_fmap.
  split; intros (n & -> & Hn); exists n; (split; [done|]).
  - apply list_elem_of_filter. by apply elem_of_find_all in Hn as [? ?].
  - apply list_elem_of_filter in Hn as [? ?]. by apply elem_of_find_all.
Qed.

(** The answer of [extract_tables]: the table names of the statement,
    in increasing order, each once. *)
Lemma extract_tables_sorted sql statement :
  parse_one sql = Ok statement ->
  ∃ names, extract_tables sql = Ok names
           ∧ Sorted PyStr.le names ∧ NoDup names
           ∧ ∀ x, x ∈ names ↔ x ∈ Spec.table_names statement.
Proof.
  intros Hp. unfold SQLValidator.extract_tables. rewrite Hp.
  eexists. split; [done|]. split_and!.
  - apply Sorted_merge_sort. apply _.
  - rewrite merge_sort_Permutation. apply NoDup_elements.
  - intros x. rewrite merge_sort_Permutation, elem_of_elements.
    apply elem_of_tables.
Qed.

Lemma accepted_parsed self sql :
  validate_or_raise self sql = Ok tt -> ∃ statement, parse_one sql = Ok statement.
Proof.
  unfold SQLValidator.validate_or_raise.
  destruct (_ || _); [done|].
  destruct (parse_one sql) as [statement|e]; [by exists statement|done].
Qed.

(** [extract_tables] on the normal form of a text. *)
Lemma extract_tables_normal_form sql statement :
  parse_one sql = Ok statement ->
  normalize_sql sql ≫= extract_tables
  = match to_sql statement with
    | Ok text =>
        match parse_one text with
        | Ok statement' =>
            Ok (merge_sort PyStr.le
                  (elements (list_to_set
                               (exp.name <$> exp.find_all exp.Table statement')
                             : gset str)))
        | Raise e =>
            Raise (SQLParseError ("Failed to extract tables: " ++ exn_str e))
        end
    | Raise e =>
        Raise (SQLParseError ("Failed to normalize SQL: " ++ exn_str e))
    end.
Proof.
  intros Hp. unfold SQLValidator.normalize_sql. rewrite Hp. simpl.
  destruct (to_sql statement) as [text|e]; [|done]. simpl.
  unfold SQLValidator.extract_tables. by destruct (parse_one text).
Qed.

(** A sorted list without repetition is determined by its members. *)
Lemma sorted_members (l k : list str) :
  Sorted PyStr.le l -> NoDup l -> Sorted PyStr.le k -> NoDup k ->
  (∀ x, x ∈ l ↔ x ∈ k) -> l = k.
Proof.
  intros Hl Hdl Hk Hdk Hsame.
  apply (Sorted_unique PyStr.le); [done|done|].
  by apply NoDup_Permutation.
Qed.


End Tables.

Section TablesExamples.

#[local] Existing Instance Demo.unicode.


End TablesExamples.

(** ** The tool [query] *)
Section ToolClaims.

Context {U : PyStr.Unicode}.

Import Server.

Variable QueryRequest : Type.
Variable QueryResponse : Type.
Variable new_request :
  str -> option str -> ReturnType -> Outcome QueryRequest.
Variable has_request_id : QueryRequest -> bool.
Variable set_request_id : QueryRequest -> str -> Outcome QueryRequest.
Variable to_dict : QueryResponse -> Outcome PyValue.
Variable request_context : Outcome str.

Local Abbreviation Orchestrator := (Orchestrator QueryRequest QueryResponse).
Local Abbreviation request_scope :=
  (request_scope QueryRequest QueryResponse new_request has_request_id
     set_request_id to_dict request_context).
Local Abbreviation query :=
  (query QueryRequest QueryResponse new_request has_request_id
     set_request_id to_dict request_context).

Implicit Types (question return_type : str) (database : option str).

Lemma failure_shape (code message : str) (details : PyValue) :
  success (failure code message details) = Some false
  ∧ error_code (failure code message details) = Some code
  ∧ error_populated (failure code message details).
Proof. split_and!; [done|done|]. by exists code, message, details. Qed.

(** C7, as the code has it. Called before the orchestrator is
    initialised, [query] answers [success=False] with the code
    SERVER_NOT_INITIALIZED, whatever the return type; called with an
    initialised orchestrator and a return type other than "sql" and
    "result", it answers [success=False] with the code INVALID_PARAMETER.
    In both cases the orchestrator is not called. *)
Theorem query_guards question database return_type :
  (∃ d, query None question database return_type = (Returns d, [])
        ∧ success d = Some false
        ∧ error_code d = Some "SERVER_NOT_INITIALIZED")
  ∧ (∀ orchestrator : Orchestrator,
       return_type ≠ "sql" → return_type ≠ "result" →
       ∃ d, query (Some orchestrator) question database return_type
            = (Returns d, [])
            ∧ success d = Some false
            ∧ error_code d = Some "INVALID_PARAMETER").
Proof.
  split.
  - eexists. split; [reflexivity|]. split; reflexivity.
  - intros orchestrator Hsql Hresult. unfold Server.query.
    rewrite bool_decide_eq_false_2; simpl.
    + eexists. split; [reflexivity|]. split; reflexivity.
    + intros [->|[->|[]%elem_of_nil]%elem_of_cons]%elem_of_cons; done.
Qed.

(** C8, as the code has it. Every exception raised inside the request
    scope that is an instance of [Exception] is turned into an answer
    with [success=False] and a populated error, of code INVALID_REQUEST,
    carrying the text of the exception. Every exception raised inside
    the request scope that is not an instance of [Exception] (a
    [CancelledError], a [KeyboardInterrupt], a [SystemExit]) leaves
    [query] as it is: [query] raises it. And [query] raises in no other
    case: what it raises is such an exception, raised inside the
    scope. *)
Theorem query_catches_exceptions
    (_orchestrator : option Orchestrator) question database return_type :
  (∀ orchestrator e calls,
     _orchestrator = Some orchestrator →
     return_type ∈ ["sql"; "result"] →
     request_scope orchestrator question database return_type
       = (Raises e, calls) →
     is_Exception e = true →
     ∃ d, query _orchestrator question database return_type
          = (Returns d, calls)
          ∧ success d = Some false
          ∧ error_code d = Some "INVALID_REQUEST"
          ∧ error_populated d
          ∧ item "error" d ≫= item "details"
            = Some (PyDict [("error", PyStr (exn_text e))]))
  ∧ (∀ orchestrator e calls,
       _orchestrator = Some orchestrator →
       return_type ∈ ["sql"; "result"] →
       request_scope orchestrator question database return_type
         = (Raises e, calls) →
       is_Exception e = false →
       query _orchestrator question database return_type = (Raises e, calls))
  ∧ (∀ e calls,
       query _orchestrator question database return_type = (Raises e, calls) →
       is_Exception e = false
       ∧ ∃ orchestrator,
           _orchestrator = Some orchestrator
           ∧ request_scope orchestrator question database return_type
             = (Raises e, calls)).
Proof.
  split_and!.
  - intros orchestrator e calls -> Hrt Hscope Hexn. unfold Server.query.
    rewrite bool_decide_eq_true_2 by done. simpl.
    rewrite Hscope, Hexn. eexists. split; [reflexivity|].
    split_and!; try reflexivity. by eexists _, _, _.
  - intros orchestrator e calls -> Hrt Hscope Hexn. unfold Server.query.
    rewrite bool_decide_eq_true_2 by done. simpl.
    by rewrite Hscope, Hexn.
  - intros e calls. unfold Server.query.
    destruct _orchestrator as [orchestrator|]; [|done].
    destruct (negb _); [done|].
    destruct (request_scope orchestrator question database return_type)
      as [[d|e'] calls'] eqn:Hscope; [done|].
    destruct (is_Exception e') eqn:Hexn; [done|].
    intros [= <- <-]. split; [done|]. by exists orchestrator.
Qed.

End ToolClaims.

Section ToolClaimsExamples.

#[local] Existing Instance Demo.unicode.

(** The orchestrator fails with an exception inside the scope, and the
    orchestrator is cancelled inside the scope. *)
Lemma query_catches_exceptions_witness :
  (∃ d calls,
     Demo.query (Some Demo.failing) "how many users?" None "result"
     = (Server.Returns d, calls)
     ∧ Server.error_code d = Some "INVALID_REQUEST")
  ∧ Demo.query (Some Demo.cancelled) "how many users?" None "result"
    = (Server.Raises {| Server.is_Exception := false; Server.exn_text := "" |},
       [("how many users?", None, Server.RESULT, Some "req-1")]).
Proof.
  split.
  - destruct (query_catches_exceptions Demo.QueryRequest Server.PyValue
                Demo.new_request (λ _, true) Demo.set_request_id Demo.to_dict
                Demo.request_context (Some Demo.failing)
                "how many users?" None "result") as [H _].
    destruct (H Demo.failing
                {| Server.is_Exception := true; Server.exn_text := "boom" |}
                [("how many users?", None, Server.RESULT, Some "req-1")]
                eq_refl) as (d & Hq & _ & Hcode & _).
    + set_solver.
    + reflexivity.
    + reflexivity.
    + by exists d, [("how many users?", None, Server.RESULT, Some "req-1")].
  - destruct (query_catches_exceptions Demo.QueryRequest Server.PyValue
                Demo.new_request (λ _, true) Demo.set_request_id Demo.to_dict
                Demo.request_context (Some Demo.cancelled)
                "how many users?" None "result") as (_ & H & _).
    apply (H Demo.cancelled); [reflexivity|set_solver|reflexivity|reflexivity].
Defined.

(** A return type that is neither "sql" nor "result", with an
    orchestrator in place. *)
Lemma query_guards_witness :
  ∃ d,
    Demo.query (Some Demo.answering) "how many users?" None "csv"
    = (Server.Returns d, [])
    ∧ Server.error_code d = Some "INVALID_PARAMETER".
Proof.
  destruct (query_guards Demo.QueryRequest Server.PyValue
              Demo.new_request (λ _, true) Demo.set_request_id Demo.to_dict
              Demo.request_context "how many users?" None "csv") as [_ H].
  destruct (H Demo.answering) as (d & Hq & _ & Hcode); [done|done|].
  by exists d.
Defined.

(** C7 as the specification states it fails when both conditions hold:
    before initialisation, a return type that is neither "sql" nor
    "result" is answered with SERVER_NOT_INITIALIZED, not with
    INVALID_PARAMETER. *)
Lemma uninitialized_before_parameter :
  ("csv" ∉ ["sql"; "result"])
  ∧ ∃ d,
      Demo.query None "how many users?" None "csv" = (Server.Returns d, [])
      ∧ Server.error_code d = Some "SERVER_NOT_INITIALIZED"
      ∧ Server.error_code d ≠ Some "INVALID_PARAMETER".
Proof.
  split.
  - intros [?|[?|[]%elem_of_nil]%elem_of_cons]%elem_of_cons; done.
  - eexists. split; [reflexivity|]. split; [reflexivity|done].
Qed.

(** C8 as the specification states it fails on a cancelled request: the
    orchestrator call raises [CancelledError], which is not an instance
    of [Exception], inside the request scope, and [query] raises it. *)
Lemma cancellation_propagates :
  let CancelledError :=
    {| Server.is_Exception := false; Server.exn_text := "" |} in
  let calls := [("how many users?", None, Server.RESULT, Some "req-1")] in
  Server.request_scope Demo.QueryRequest Server.PyValue Demo.new_request
    (λ _, true) Demo.set_request_id Demo.to_dict Demo.request_context
    Demo.cancelled "how many users?" None "result"
  = (Server.Raises CancelledError, calls)
  ∧ Demo.query (Some Demo.cancelled) "how many users?" None "result"
    = (Server.Raises CancelledError, calls)
  ∧ ¬ ∃ d, Demo.query (Some Demo.cancelled) "how many users?" None "result"
           = (Server.Returns d, calls).
Proof. split_and!; [reflexivity|reflexivity|]. by intros [d [=]]. Qed.

End ToolClaimsExamples.

(** ** The pools of [lifespan] *)
Section PoolClaims.

Context {U : PyStr.Unicode}.

Import Server.

Variable environ : gmap str str.
Variable int : str -> Outcome Z.
Variable Pool : Type.
Variable create_pool : DatabaseConfig -> Outcome Pool.

Local Abbreviation getenv_truthy := (getenv_truthy environ).
Local Abbreviation db1_config := (db1_config environ int).
Local Abbreviation db2_config := (db2_config environ int).
Local Abbreviation create_pools := (create_pools environ int Pool create_pool).

(** [os.getenv(key)] is true exactly when the variable is set to a
    string that is not empty. *)
Lemma getenv_truthy_spec (key : str) :
  getenv_truthy key = true <-> ∃ value, environ !! key = Some value ∧ value ≠ "".
Proof.
  unfold Server.getenv_truthy, getenv_opt.
  destruct (environ !! key) as [[|c r]|]; simpl.
  - split; [done|]. by intros (value & [= <-] & ?).
  - split; [|done]. intros _. by eexists.
  - split; [done|]. by intros (value & [=] & _).
Qed.

(** The second configuration takes each value that has no DATABASE2
    variable from the first configuration. *)
Lemma db2_fallbacks (db1 db2 : DatabaseConfig) :
  db1_config = Returns db1 -> db2_config = Returns db2 ->
  host db2 = default (host db1) (environ !! "DATABASE2_HOST")
  ∧ user db2 = default (user db1) (environ !! "DATABASE2_USER")
  ∧ password db2 = default (password db1) (environ !! "DATABASE2_PASSWORD")
  ∧ (environ !! "DATABASE2_PORT" = None → port db2 = port db1)
  ∧ (∀ text, environ !! "DATABASE2_PORT" = Some text →
             int text = Returns (port db2))
  ∧ name db2 = default "" (environ !! "DATABASE2_NAME").
Proof.
  unfold Server.db1_config, Server.db2_config, getenv, getenv_opt.
  destruct (int (default "5432" (environ !! "DATABASE_PORT")))
    as [port1|e1] eqn:Hport1; simpl; [|done].
  destruct (int (default _ (environ !! "DATABASE2_PORT")))
    as [port2|e2] eqn:Hport2; simpl; [|done].
  intros [= <-] [= <-]. simpl. split_and!; try done.
  - intros Hnone. rewrite Hnone in Hport2. simpl in Hport2. congruence.
  - intros text Hsome. rewrite Hsome in Hport2. done.
Qed.

(** C9, as the code has it. When start-up gets through the creation of
    the pools: a second pool is created and registered exactly when
    DATABASE2_NAME is set to a string that is not empty; it is registered
    under that name, and its host, port, user and password are those of
    the primary configuration wherever the DATABASE2 variable is unset.
    Otherwise the registry holds one pool, the primary. *)
Theorem second_pool_registered
    (pools : gmap str Pool) (created : list DatabaseConfig) :
  create_pools = Returns (pools, created) ->
  ∃ db1 pool1,
    db1_config = Returns db1 ∧ create_pool db1 = Returns pool1
    ∧ (length created = 2
       ↔ ∃ value, environ !! "DATABASE2_NAME" = Some value ∧ value ≠ "")
    ∧ ((∃ value, environ !! "DATABASE2_NAME" = Some value ∧ value ≠ "") →
       ∃ db2 pool2,
         created = [db1; db2] ∧ create_pool db2 = Returns pool2
         ∧ pools = <[name db2 := pool2]> {[name db1 := pool1]}
         ∧ environ !! "DATABASE2_NAME" = Some (name db2)
         ∧ host db2 = default (host db1) (environ !! "DATABASE2_HOST")
         ∧ user db2 = default (user db1) (environ !! "DATABASE2_USER")
         ∧ password db2
           = default (password db1) (environ !! "DATABASE2_PASSWORD")
         ∧ (environ !! "DATABASE2_PORT" = None → port db2 = port db1)
         ∧ (∀ text, environ !! "DATABASE2_PORT" = Some text →
                    int text = Returns (port db2)))
    ∧ ((environ !! "DATABASE2_NAME" = None
        ∨ environ !! "DATABASE2_NAME" = Some "") →
       created = [db1] ∧ pools = {[name db1 := pool1]} ∧ size pools = 1).
Proof.
  unfold Server.create_pools.
  destruct db1_config as [db1|e] eqn:Hdb1; simpl; [|done].
  destruct (create_pool db1) as [pool1|e] eqn:Hpool1; simpl; [|done].
  rewrite insert_empty.
  destruct (getenv_truthy "DATABASE2_NAME") eqn:Htruthy.
  - destruct db2_config as [db2|e] eqn:Hdb2; simpl; [|done].
    destruct (create_pool db2) as [pool2|e] eqn:Hpool2; simpl; [|done].
    intros [= <- <-]. exists db1, pool1.
    apply getenv_truthy_spec in Htruthy as Hset.
    destruct (db2_fallbacks db1 db2 Hdb1 Hdb2)
      as (Hhost & Huser & Hpassword & Hport & Hport' & Hname).
    split_and!; try done.
    + intros _. exists db2, pool2. split_and!; try done.
      destruct Hset as (value & Hvalue & _). rewrite Hname, Hvalue. done.
    + intros [Hnone|Hempty]; destruct Hset as (value & Hvalue & Hne);
        congruence.
  - intros [= <- <-]. exists db1, pool1.
    assert (¬ ∃ value, environ !! "DATABASE2_NAME" = Some value ∧ value ≠ "")
      as Hunset.
    { rewrite <- getenv_truthy_spec. congruence. }
    split_and!; try done.
    intros _. split_and!; try done. apply map_size_singleton.
Qed.

End PoolClaims.

Section PoolClaimsExamples.

#[local] Existing Instance Demo.unicode.

(** DATABASE2_NAME alone is set: the second pool takes everything else
    from the primary configuration. *)
Lemma second_pool_registered_witness :
  ∃ pools db1 db2,
    Demo.create_pools {[ "DATABASE2_NAME" := "reports" ]}
    = Server.Returns (pools, [db1; db2])
    ∧ Server.name db2 = "reports"
    ∧ Server.host db2 = Server.host db1
    ∧ Server.port db2 = Server.port db1.
Proof.
  set (environ := ({[ "DATABASE2_NAME" := "reports" ]} : gmap str str)).
  destruct (Demo.create_pools environ) as [[pools created]|e] eqn:Hrun;
    [|by vm_compute in Hrun].
  destruct (second_pool_registered environ Demo.int Server.DatabaseConfig
              Demo.create_pool pools created Hrun)
    as (db1 & pool1 & _ & _ & _ & Hsecond & _).
  destruct Hsecond
    as (db2 & pool2 & -> & _ & _ & Hname & Hhost & _ & _ & Hport & _).
  { exists "reports". split; [by vm_compute|done]. }
  assert (environ !! "DATABASE2_NAME" = Some "reports") as Hset
    by (vm_compute; reflexivity).
  assert (environ !! "DATABASE2_HOST" = None) as Hnohost
    by (vm_compute; reflexivity).
  assert (environ !! "DATABASE2_PORT" = None) as Hnoport
    by (vm_compute; reflexivity).
  exists pools, db1, db2. split_and!.
  - done.
  - congruence.
  - by rewrite Hhost, Hnohost.
  - by apply Hport.
Defined.

(** C9 as the specification states it fails when DATABASE2_NAME is set
    to the empty string: the variable is set, and only the primary pool
    is created and registered. *)
Lemma empty_name_no_second_pool :
  is_Some (({[ "DATABASE2_NAME" := "" ]} : gmap str str)
             !! "DATABASE2_NAME")
  ∧ ∃ pools db1,
      Demo.create_pools {[ "DATABASE2_NAME" := "" ]}
      = Server.Returns (pools, [db1])
      ∧ size pools = 1.
Proof.
  split; [by eexists|].
  eexists _, _. split; [vm_compute; reflexivity|]. by vm_compute.
Qed.

End PoolClaimsExamples.

(** * Further properties of the validator *)

#[local] Set Warnings "-clear-no-such-hyp".

Section Kinds.

Context {U : PyStr.Unicode}.

Import SQLValidator.

Implicit Types (self : t) (statement node : exp.Expression) (sql : str).

(** The command branch of the statement-kind check. *)
Lemma command_type_check self statement sql :
  exp.cls statement = exp.Command ->
  _check_statement_type self statement sql =
  if bool_decide (PyStr.upper (exp.this statement) = "EXPLAIN") then
    match explain_policy self with
    | DISABLED => security "EXPLAIN statements are not allowed"
    | EXPLAIN_ONLY =>
        if PyStr.contains "ANALYZE" (PyStr.upper sql)
        then security "EXPLAIN ANALYZE is not allowed" else Ok tt
    | EXPLAIN_ANALYZE => Ok tt
    end
  else security ("Command '" ++ PyStr.upper (exp.this statement)
                 ++ "' is not allowed").
Proof.
  destruct statement as [c this name table children]. simpl. intros ->.
  unfold _check_statement_type, exp.isinstance. simpl exp.cls. simpl exp.this.
  rewrite bool_decide_eq_true_2 by set_solver.
  destruct this as [|a r]; [done|]. simpl PyStr.truthy. cbv iota.
  case_bool_decide; [|done]. by destruct (explain_policy self).
Qed.

(** A class that is one of those of a list. *)
Local Ltac listed :=
  solve [repeat first [apply list_elem_of_here | apply list_elem_of_further]].

(** The default refusal, for the kinds that are not listed. *)
Lemma unlisted_kind_refused self statement sql :
  exp.cls statement ∉ [exp.Command; exp.Select; exp.Union; exp.Subquery] ->
  PyStr.upper (exp.key statement) ∉ ["SELECT"; "UNION"] ->
  _check_statement_type self statement sql
  = Raise (SecurityViolationError
             ("Statement type '" ++ PyStr.upper (exp.key statement)
              ++ "' is not allowed")).
Proof.
  destruct statement as [c this name table children].
  unfold _check_statement_type, exp.isinstance, exp.key, security.
  simpl exp.cls. intros Hcls Hkey.
  destruct c;
    first [by exfalso; apply Hcls; listed | reflexivity | idtac].
  - simpl. by rewrite (bool_decide_eq_false_2 _ Hkey).
  - simpl. by rewrite (bool_decide_eq_false_2 _ Hkey).
Qed.

(** X1. Whatever is not a command, a SELECT, a UNION or a parenthesised
    query is refused by the statement-kind check, with a message that
    names the upper-cased key of the statement; and a command other than
    EXPLAIN is refused under every policy, with a message that names its
    upper-cased keyword. *)
Theorem other_kinds_rejected self statement sql :
  (exp.cls statement ∉ [exp.Command; exp.Select; exp.Union; exp.Subquery] →
   PyStr.upper (exp.key statement) ∉ ["SELECT"; "UNION"] →
   _check_statement_type self statement sql
   = Raise (SecurityViolationError
              ("Statement type '" ++ PyStr.upper (exp.key statement)
               ++ "' is not allowed")))
  ∧ (exp.cls statement = exp.Command →
     PyStr.upper (exp.this statement) ≠ "EXPLAIN" →
     _check_statement_type self statement sql
     = Raise (SecurityViolationError
                ("Command '" ++ PyStr.upper (exp.this statement)
                 ++ "' is not allowed"))).
Proof.
  split.
  - apply unlisted_kind_refused.
  - intros Hcls Hkw. rewrite (command_type_check _ _ _ Hcls).
    by rewrite bool_decide_eq_false_2.
Qed.

(** The kinds that pass the statement-kind check. *)
Lemma kind_check_ok self statement sql :
  _check_statement_type self statement sql = Ok tt
  <-> Verdicts.kind_allowed self statement sql.
Proof.
  unfold Verdicts.kind_allowed, Verdicts.explain_permitted, Spec.is_explain.
  destruct (decide (exp.cls statement = exp.Command)) as [Hcmd|Hcmd].
  - rewrite (command_type_check _ _ _ Hcmd). rewrite Hcmd.
    case_bool_decide as Hkw.
    + destruct (explain_policy self); simpl.
      * split; [done|]. intros [H|[[_ [H|[H _]]]|(c & [H|H] & _)]];
          try done. set_solver.
      * destruct (PyStr.contains _ _) eqn:Hc.
        -- split; [done|]. intros [H|[[_ [H|[_ H]]]|(c & [H|H] & _)]];
             try done. set_solver.
        -- split; [|done]. intros _. right. left. split; [done|]. by right.
      * split; [|done]. intros _. right. left. split; [done|]. by left.
    + split; [done|]. intros [H|[[[_ H] _]|(c & [H|H] & _)]]; try done.
      set_solver.
  - destruct (decide (exp.cls statement
                      ∈ [exp.Select; exp.Union; exp.Subquery])) as [Hin|Hout].
    + split; [by left|]. intros _.
      destruct statement as [c this name table children]. simpl in *.
      destruct c; try (exfalso; set_solver); reflexivity.
    + destruct (decide (PyStr.upper (exp.key statement)
                        ∈ ["SELECT"; "UNION"])) as [Hkey|Hkey].
      * destruct statement as [c this name table children]. simpl in *.
        unfold exp.key in Hkey. simpl in Hkey.
        destruct c; try (exfalso; set_solver).
        -- split; [intros _; right; right; eauto|]. intros _.
           unfold _check_statement_type, exp.isinstance, exp.key.
           simpl exp.cls.
           rewrite !bool_decide_eq_false_2 by set_solver. simpl.
           by rewrite bool_decide_eq_true_2.
        -- split; [intros _; right; right; eauto|]. intros _.
           unfold _check_statement_type, exp.isinstance, exp.key.
           simpl exp.cls.
           rewrite !bool_decide_eq_false_2 by set_solver. simpl.
           by rewrite bool_decide_eq_true_2.
      * rewrite (unlisted_kind_refused self statement sql); [|set_solver|done].
        split; [done|].
        intros [H|[[[H _] _]|(c & Hc & Hk)]]; [done|done|].
        exfalso. apply Hkey. unfold exp.key. by destruct Hc as [->| ->].
Qed.

(** X2. The statement-kind check passes exactly for the allowed kinds:
    SELECT, UNION, a parenthesised query, and EXPLAIN when the policy
    permits it for this text (always under EXPLAIN_ANALYZE, without
    "ANALYZE" in the upper-cased text under EXPLAIN_ONLY); for every other
    statement it raises a security violation. A WITH node, a TRUNCATE, a
    COPY, an INTERSECT or an EXCEPT at the root do not pass. *)
Theorem statement_type_allowed_iff self statement sql :
  (_check_statement_type self statement sql = Ok tt
   ↔ Verdicts.kind_allowed self statement sql)
  ∧ (¬ Verdicts.kind_allowed self statement sql →
     ∃ msg, _check_statement_type self statement sql
            = Raise (SecurityViolationError msg)).
Proof.
  split; [apply kind_check_ok|].
  intros Hno.
  destruct (_check_statement_type self statement sql) as [[]|e] eqn:Hck.
  - by apply kind_check_ok in Hck.
  - destruct (statement_type_raise _ _ _ _ Hck) as [msg ->]. by exists msg.
Qed.

End Kinds.

Section KindsExamples.

#[local] Existing Instance Demo.unicode.

(** A TRUNCATE and a VACUUM. *)
Lemma other_kinds_rejected_witness :
  SQLValidator._check_statement_type (Demo.validator EXPLAIN_ANALYZE)
    (exp.Node exp.TruncateTable "" "" "" [Demo.table_ref "users"])
    "TRUNCATE TABLE users"
  = Raise (SecurityViolationError
             "Statement type 'TRUNCATETABLE' is not allowed")
  ∧ SQLValidator._check_statement_type (Demo.validator EXPLAIN_ANALYZE)
      (Demo.command "VACUUM" "") "VACUUM"
    = Raise (SecurityViolationError "Command 'VACUUM' is not allowed").
Proof.
  split.
  - apply (other_kinds_rejected (Demo.validator EXPLAIN_ANALYZE)
             (exp.Node exp.TruncateTable "" "" "" [Demo.table_ref "users"])
             "TRUNCATE TABLE users").
    + set_solver.
    + vm_compute. set_solver.
  - apply (other_kinds_rejected (Demo.validator EXPLAIN_ANALYZE)
             (Demo.command "VACUUM" "") "VACUUM").
    + reflexivity.
    + by vm_compute.
Defined.

End KindsExamples.

Section DenyLists.

Context {U : PyStr.Unicode}.

Import SQLValidator.

Implicit Types (self : t) (statement node : exp.Expression) (sql : str).

Lemma blocked_functions_ok self statement :
  _check_blocked_functions self statement = Ok tt
  <-> ∀ node, node ∈ Spec.nodes statement →
              ¬ Verdicts.denied_function self node.
Proof.
  unfold _check_blocked_functions, Verdicts.denied_function.
  rewrite for_each_ok. split.
  - intros Hall node Hin%elem_of_walk [Hf Hb].
    specialize (Hall node Hin). simpl in Hall. rewrite Hf in Hall.
    by rewrite bool_decide_eq_true_2 in Hall.
  - intros Hnone node Hin%elem_of_walk. simpl.
    destruct (exp.is_func node) eqn:Hf; [|done].
    case_bool_decide; [|done]. by destruct (Hnone node Hin).
Qed.

Lemma blocked_tables_ok self statement :
  _check_blocked_tables self statement = Ok tt
  <-> ∀ node, node ∈ Spec.nodes statement →
              ¬ Verdicts.denied_table self node.
Proof.
  unfold _check_blocked_tables, Verdicts.denied_table.
  case_bool_decide as Hempty.
  - split; [|done]. intros _ node _ [_ Hb].
    rewrite Hempty in Hb. by apply not_elem_of_empty in Hb.
  - rewrite for_each_ok. split.
    + intros Hall node Hin [Hc Hb].
      assert (node ∈ exp.find_all exp.Table statement) as Hfound
        by by apply elem_of_find_all.
      specialize (Hall node Hfound). simpl in Hall.
      by rewrite bool_decide_eq_true_2 in Hall.
    + intros Hnone node [Hin Hc]%elem_of_find_all. simpl.
      case_bool_decide; [|done]. by destruct (Hnone node Hin).
Qed.

(** X3. The function check passes exactly when no function call of the
    statement has its lower-cased name in the deny-list; when it raises,
    the message names, lower-cased, a denied function call of the
    statement. *)
Theorem blocked_functions_iff self statement :
  (_check_blocked_functions self statement = Ok tt
   ↔ ∀ node, node ∈ Spec.nodes statement →
             ¬ Verdicts.denied_function self node)
  ∧ (∀ e, _check_blocked_functions self statement = Raise e →
          ∃ node, node ∈ Spec.nodes statement
                  ∧ Verdicts.denied_function self node
                  ∧ e = SecurityViolationError
                          ("Function '" ++ PyStr.lower (exp.name node)
                           ++ "' is not allowed")).
Proof.
  split; [apply blocked_functions_ok|].
  unfold _check_blocked_functions, Verdicts.denied_function.
  - intros e (node & Hin%elem_of_walk & Hb)%for_each_raise.
    exists node. simpl in Hb.
    destruct (exp.is_func node); [|done].
    case_bool_decide; [|done]. unfold security in Hb. by simplify_eq.
Qed.

(** X4. The table check passes exactly when no table reference of the
    statement has its lower-cased name in the deny-list; when it raises,
    the message names, lower-cased, a denied table of the statement. *)
Theorem blocked_tables_iff self statement :
  (_check_blocked_tables self statement = Ok tt
   ↔ ∀ node, node ∈ Spec.nodes statement →
             ¬ Verdicts.denied_table self node)
  ∧ (∀ e, _check_blocked_tables self statement = Raise e →
          ∃ node, node ∈ Spec.nodes statement
                  ∧ Verdicts.denied_table self node
                  ∧ e = SecurityViolationError
                          ("Access to table '" ++ PyStr.lower (exp.name node)
                           ++ "' is blocked")).
Proof.
  split; [apply blocked_tables_ok|].
  unfold _check_blocked_tables, Verdicts.denied_table.
  case_bool_decide as Hempty; [done|].
  intros e (node & [Hin Hc]%elem_of_find_all & Hb)%for_each_raise.
  exists node. simpl in Hb.
  case_bool_decide; [|done]. unfold security in Hb. by simplify_eq.
Qed.

End DenyLists.

Section Acceptance.

Context {U : PyStr.Unicode}.

Import SQLValidator.

Variable parse_one : str -> Result exp.Expression.
Variable parse : str -> Result (list (option exp.Expression)).

Implicit Types (self : t) (statement node : exp.Expression) (sql : str).

Local Abbreviation validate_or_raise := (validate_or_raise parse_one parse).
Local Abbreviation validate := (validate parse_one parse).
Local Abbreviation extract_tables := (extract_tables parse_one).

(** The three walks pass exactly when the statement has no denied node. *)
Lemma deny_lists_ok self statement :
  _check_blocked_functions self statement = Ok tt
  ∧ _check_blocked_tables self statement = Ok tt
  ∧ _check_blocked_columns self statement = Ok tt
  <-> ∀ node, node ∈ Spec.nodes statement → ¬ Verdicts.denied_node self node.
Proof.
  rewrite blocked_functions_ok, blocked_tables_ok, blocked_columns_ok.
  unfold Verdicts.denied_node. split.
  - intros (Hf & Ht & Hc) node Hin [H|[H|H]].
    + by apply (Hf node).
    + by apply (Ht node).
    + by apply (Hc node).
  - intros Hnone. split_and!; intros node Hin H; apply (Hnone node Hin); auto.
Qed.

(** X5. What the validator accepts. [validate_or_raise] returns exactly
    when the text is not blank, [parse_one] gives a statement,
    [sqlglot.parse] gives at most one, the kind of the statement is
    allowed, and no node of the statement is a denied function call, a
    denied table or a denied column. *)
Theorem accepted_iff self sql :
  validate_or_raise self sql = Ok tt
  <-> Spec.whitespace_only sql = false
      ∧ ∃ statement parsed,
          parse_one sql = Ok statement
          ∧ parse sql = Ok parsed ∧ length parsed ≤ 1
          ∧ Verdicts.kind_allowed self statement sql
          ∧ ∀ node, node ∈ Spec.nodes statement →
                    ¬ Verdicts.denied_node self node.
Proof.
  split.
  - unfold SQLValidator.validate_or_raise. rewrite empty_test.
    destruct (Spec.whitespace_only sql); [done|].
    destruct (parse_one sql) as [statement|e]; [|done].
    destruct (parse sql) as [parsed|e]; simpl; [|done].
    case_bool_decide as Hlen; [done|].
    intros (Hk & Hrest)%checks_ok. split; [done|].
    exists statement, parsed. split_and!; try done.
    + lia.
    + by apply kind_check_ok.
    + by apply deny_lists_ok.
  - intros (Hw & statement & parsed & Hp & Hps & Hlen & Hk & Hnone).
    rewrite (validate_or_raise_single _ _ _ _ _ _ Hw Hp Hps Hlen).
    apply checks_ok. split; [by apply kind_check_ok|by apply deny_lists_ok].
Qed.

(** X6. What the class of the exception tells. Provided [sqlglot.parse]
    raises nothing but the exceptions of the parser library:
    [validate_or_raise] raises [SQLParseError] exactly when the text is
    blank ("SQL query is empty") or [parse_one] raises ("Failed to parse
    SQL: " and the text of the parser's exception); it raises
    [SecurityViolationError] only on a text that is not blank and that
    [parse_one] accepts. *)
Theorem exception_classes self sql :
  (∀ e, parse sql = Raise e → ∃ m, e = ParserException m) ->
  (∀ msg,
     validate_or_raise self sql = Raise (SQLParseError msg)
     ↔ (Spec.whitespace_only sql = true ∧ msg = "SQL query is empty")
       ∨ (Spec.whitespace_only sql = false
          ∧ ∃ e, parse_one sql = Raise e
                 ∧ msg = "Failed to parse SQL: " ++ exn_str e))
  ∧ (∀ msg,
       validate_or_raise self sql = Raise (SecurityViolationError msg) →
       Spec.whitespace_only sql = false
       ∧ ∃ statement, parse_one sql = Ok statement).
Proof.
  intros Hlib. unfold SQLValidator.validate_or_raise. rewrite empty_test.
  destruct (Spec.whitespace_only sql).
  { split; [|done]. intros msg. split.
    - intros [= <-]. by left.
    - by intros [[_ ->]|[? _]]. }
  destruct (parse_one sql) as [statement|e].
  - split; [|intros msg _; split; [done|by exists statement]].
    intros msg. split; [|by intros [[? _]|[_ (e & ? & _)]]].
    destruct (parse sql) as [parsed|e] eqn:Hps; simpl.
    + case_bool_decide; [done|].
      intros [m' [=]]%checks_raise.
    + intros [= ->]. by destruct (Hlib _ eq_refl).
  - split; [|done]. intros msg. split.
    + intros [= <-]. right. split; [done|]. by exists e.
    + intros [[? _]|[_ (e' & [= <-] & ->)]]; done.
Qed.

(** X7. [validate] answers instead of raising. Provided [sqlglot.parse]
    returns on every text that [parse_one] accepts, [validate] always
    returns a pair: [(True, None)] exactly when [validate_or_raise]
    returns, and otherwise [(False, message)] with the message of the
    exception [validate_or_raise] raises. *)
Theorem validate_answers self sql :
  (∀ statement, parse_one sql = Ok statement → ∃ parsed, parse sql = Ok parsed) ->
  (validate_or_raise self sql = Ok tt ∧ validate self sql = Ok (true, None))
  ∨ (∃ e, validate_or_raise self sql = Raise e
          ∧ validate self sql = Ok (false, Some (exn_str e))
          ∧ (is_security e ∨ ∃ msg, e = SQLParseError msg)).
Proof.
  intros Hcoherent. unfold SQLValidator.validate.
  destruct (validate_or_raise self sql) as [[]|e] eqn:Hv; [by left|].
  right. exists e. split; [done|].
  revert Hv. unfold SQLValidator.validate_or_raise. rewrite empty_test.
  destruct (Spec.whitespace_only sql); [intros [= <-]; eauto|].
  destruct (parse_one sql) as [statement|e0] eqn:Hp; [|intros [= <-]; eauto].
  destruct (Hcoherent statement eq_refl) as [parsed ->]. simpl.
  case_bool_decide.
  - intros [= <-]. split; [done|]. left. by eexists.
  - intros [msg ->]%checks_raise. split; [done|]. left. by eexists.
Qed.

Lemma accepted_checks self sql :
  validate_or_raise self sql = Ok tt ->
  ∃ statement, parse_one sql = Ok statement
               ∧ checks self statement sql = Ok tt.
Proof.
  unfold SQLValidator.validate_or_raise.
  destruct (_ || _); [done|].
  destruct (parse_one sql) as [statement|e]; [|done].
  destruct (parse sql) as [parsed|e]; simpl; [|done].
  case_bool_decide; [done|]. intros Hc. by exists statement.
Qed.

(** The names that [extract_tables] lists are names of table nodes. *)
Lemma extracted_name sql statement names x :
  parse_one sql = Ok statement ->
  extract_tables sql = Ok names ->
  x ∈ names ->
  ∃ node, node ∈ Spec.nodes statement
          ∧ exp.cls node = exp.Table ∧ exp.name node = x.
Proof.
  intros Hp Hn Hx. unfold SQLValidator.extract_tables in Hn.
  rewrite Hp in Hn. injection Hn as <-.
  rewrite merge_sort_Permutation, elem_of_elements in Hx.
  apply elem_of_list_to_set, list_elem_of_fmap in Hx as (node & -> & Hin).
  apply elem_of_find_all in Hin as [Hin Hc]. by exists node.
Qed.

(** X8. What is accepted reads no denied table: for every text the
    validator accepts, none of the names [extract_tables] lists is, once
    lower-cased, in the table deny-list. *)
Theorem accepted_tables_not_blocked self sql names :
  validate_or_raise self sql = Ok tt ->
  extract_tables sql = Ok names ->
  ∀ x, x ∈ names → PyStr.lower x ∉ blocked_tables self.
Proof.
  intros (statement & Hp & Hc)%accepted_checks Hnames x Hx Hblocked.
  apply checks_ok in Hc as (_ & _ & Ht & _).
  destruct (extracted_name sql statement names x Hp Hnames Hx)
    as (node & Hin & Hcls & <-).
  by apply (proj1 (blocked_tables_ok self statement) Ht node Hin).
Qed.

End Acceptance.

Section AcceptanceExamples.

#[local] Existing Instance Demo.unicode.

(** A text that the parser refuses. *)
Lemma exception_classes_witness :
  ∃ msg,
    SQLValidator.validate_or_raise Demo.parse_one Demo.parse
      (Demo.validator DISABLED) "SELEC 1" = Raise (SQLParseError msg).
Proof.
  destruct (exception_classes Demo.parse_one Demo.parse
              (Demo.validator DISABLED) "SELEC 1") as [H _].
  - intros e [= <-]. by eexists.
  - eexists. apply H. right. split; [reflexivity|].
    eexists. split; [vm_compute; reflexivity|reflexivity].
Defined.

(** Two statements in one text: [validate] answers with the message. *)
Lemma validate_answers_witness :
  SQLValidator.validate Demo.parse_one Demo.parse
    (Demo.validator DISABLED) "SELECT 1; SELECT 2"
  = Ok (false, Some "Multiple SQL statements are not allowed").
Proof.
  destruct (validate_answers Demo.parse_one Demo.parse
              (Demo.validator DISABLED) "SELECT 1; SELECT 2")
    as [[Hok _]|(e & Hraise & Hanswer & _)].
  - intros statement _. by eexists.
  - by vm_compute in Hok.
  - rewrite Hanswer. vm_compute in Hraise. by injection Hraise as <-.
Defined.

(** The table of an accepted text is not in the deny-list. *)
Lemma accepted_tables_not_blocked_witness :
  PyStr.lower "users"
  ∉ SQLValidator.blocked_tables (Demo.validator EXPLAIN_ONLY).
Proof.
  apply (accepted_tables_not_blocked Demo.parse_one Demo.parse
           (Demo.validator EXPLAIN_ONLY) "select * from users" ["users"]).
  - vm_compute; reflexivity.
  - vm_compute; reflexivity.
  - apply list_elem_of_here.
Defined.

End AcceptanceExamples.

Section CaseFolding.

Context {U : PyStr.Unicode}.

Import SQLValidator.

Implicit Types (self : t) (statement node : exp.Expression) (sql : str).

(** X9. Under EXPLAIN_ONLY the test for ANALYZE ignores case: an
    EXPLAIN whose text is ASCII and contains, anywhere, a piece that
    reads ANALYZE up to case is refused. *)
Theorem analyze_any_case_rejected self statement sql word :
  Spec.is_explain statement ->
  explain_policy self = EXPLAIN_ONLY ->
  PyStr.is_ascii sql = true ->
  PyStr.contains word sql = true ->
  Spec.ascii_case_eq word "ANALYZE" ->
  _check_statement_type self statement sql
  = Raise (SecurityViolationError "EXPLAIN ANALYZE is not allowed").
Proof.
  intros Hex Hpol Hsql Hin Hword.
  rewrite (explain_type_check _ _ _ Hex), Hpol.
  apply contains_upper in Hin; [|done].
  pose proof (case_eq_is_ascii _ _ Hword) as Hascii.
  rewrite (upper_case_eq _ _ Hascii Hword) in Hin.
  change (PyStr.upper "ANALYZE") with "ANALYZE" in Hin. by rewrite Hin.
Qed.

End CaseFolding.

Section CaseFoldingExamples.

#[local] Existing Instance Demo.unicode.

(** The option written in mixed case. *)
Lemma analyze_any_case_rejected_witness :
  SQLValidator._check_statement_type (Demo.validator EXPLAIN_ONLY)
    (Demo.command "explain" "Analyze SELECT 1") "explain Analyze SELECT 1"
  = Raise (SecurityViolationError "EXPLAIN ANALYZE is not allowed").
Proof.
  apply (analyze_any_case_rejected _ _ _ "Analyze").
  - split; reflexivity.
  - reflexivity.
  - reflexivity.
  - vm_compute; reflexivity.
  - repeat first
      [ apply Spec.case_eq_nil
      | apply Spec.case_eq_cons;
        [first [by left | right; right; split; reflexivity]|] ].
Defined.

End CaseFoldingExamples.

(** * Further properties of the server *)
Section ToolCalls.

Context {U : PyStr.Unicode}.

Import Server.

Variable QueryRequest : Type.
Variable QueryResponse : Type.
Variable new_request :
  str -> option str -> ReturnType -> Outcome QueryRequest.
Variable has_request_id : QueryRequest -> bool.
Variable set_request_id : QueryRequest -> str -> Outcome QueryRequest.
Variable to_dict : QueryResponse -> Outcome PyValue.
Variable request_context : Outcome str.

Local Abbreviation Orchestrator := (Orchestrator QueryRequest QueryResponse).
Local Abbreviation request_scope :=
  (request_scope QueryRequest QueryResponse new_request has_request_id
     set_request_id to_dict request_context).
Local Abbreviation query :=
  (query QueryRequest QueryResponse new_request has_request_id
     set_request_id to_dict request_context).

Implicit Types (question return_type : str) (database : option str).

(** After the guard on the return type, the enum conversion returns. *)
Lemma return_type_of_valid return_type :
  return_type ∈ ["sql"; "result"] ->
  ReturnType_of return_type
  = Returns (if bool_decide (return_type = "sql") then SQL_ONLY else RESULT).
Proof.
  intros Hrt. unfold ReturnType_of.
  case_bool_decide; [done|]. rewrite bool_decide_eq_true_2; [done|].
  set_solver.
Qed.

Lemma query_calls_scope (orchestrator : Orchestrator)
    question database return_type :
  (query (Some orchestrator) question database return_type).2
  = if bool_decide (return_type ∈ ["sql"; "result"])
    then (request_scope orchestrator question database return_type).2
    else [].
Proof.
  unfold Server.query. case_bool_decide; simpl; [|done].
  destruct (request_scope orchestrator question database return_type)
    as [[d|e] calls]; [done|]. by destruct (is_Exception e).
Qed.

(** X10. The orchestrator is called at most once by [query], and not at
    all when the request cannot be built: when the construction of the
    request raises an exception (an empty question, say), the answer is
    an INVALID_REQUEST failure that carries the text of that exception,
    and the orchestrator is not called. *)
Theorem orchestrator_called_at_most_once
    (_orchestrator : option Orchestrator) question database return_type :
  length (query _orchestrator question database return_type).2 ≤ 1
  ∧ (∀ orchestrator id e,
       _orchestrator = Some orchestrator →
       return_type ∈ ["sql"; "result"] →
       request_context = Returns id →
       new_request question database
         (if bool_decide (return_type = "sql") then SQL_ONLY else RESULT)
       = Raises e →
       is_Exception e = true →
       query _orchestrator question database return_type
       = (Returns (failure "INVALID_REQUEST"
                     ("Invalid request parameters: " ++ exn_text e)
                     (PyDict [("error", PyStr (exn_text e))])), [])).
Proof.
  split.
  - destruct _orchestrator as [orchestrator|]; [|simpl; lia].
    rewrite query_calls_scope. case_bool_decide; [|simpl; lia].
    unfold Server.request_scope.
    destruct (_ ≫= _) as [request|e]; simpl; lia.
  - intros orchestrator id e -> Hrt Hid Hnew Hexn.
    unfold Server.query. rewrite bool_decide_eq_true_2 by done. simpl.
    unfold Server.request_scope.
    rewrite Hid, (return_type_of_valid _ Hrt). simpl.
    rewrite Hnew. simpl. by rewrite Hexn.
Qed.

(** X11. The way through [query]. With an orchestrator in place and a
    return type "sql" or "result", the request is built with the enum
    value of the return type (the conversion cannot fail after the
    guard) and given the request id when the model has the attribute;
    the orchestrator is called once, with that request, and what
    [to_dict] makes of its response is returned unchanged. *)
Theorem query_passes_answer
    (orchestrator : Orchestrator) question database return_type
    (id : str) (built request : QueryRequest)
    (response : QueryResponse) (d : PyValue) :
  return_type ∈ ["sql"; "result"] ->
  request_context = Returns id ->
  new_request question database
    (if bool_decide (return_type = "sql") then SQL_ONLY else RESULT)
  = Returns built ->
  (if has_request_id built then set_request_id built id else Returns built)
  = Returns request ->
  orchestrator request = Returns response ->
  to_dict response = Returns d ->
  query (Some orchestrator) question database return_type
  = (Returns d, [request]).
Proof.
  intros Hrt Hid Hnew Hset Hcall Hdict.
  unfold Server.query. rewrite bool_decide_eq_true_2 by done. simpl.
  unfold Server.request_scope.
  rewrite Hid, (return_type_of_valid _ Hrt). simpl.
  rewrite Hnew. simpl. rewrite Hset, Hcall. simpl. by rewrite Hdict.
Qed.

End ToolCalls.

Section ToolExamples.

#[local] Existing Instance Demo.unicode.

Import Server.

(** An empty question: the request is refused before the orchestrator
    is called. *)
Lemma orchestrator_called_at_most_once_witness :
  ∃ d,
    Demo.query (Some Demo.answering) "" None "sql" = (Returns d, [])
    ∧ error_code d = Some "INVALID_REQUEST".
Proof.
  destruct (orchestrator_called_at_most_once Demo.QueryRequest PyValue
              Demo.new_request (λ _, true) Demo.set_request_id Demo.to_dict
              Demo.request_context (Some Demo.answering) "" None "sql")
    as [_ H].
  eexists. split.
  - apply (H Demo.answering "req-1"
             {| is_Exception := true;
                exn_text := "question must not be empty" |});
      [reflexivity|set_solver|reflexivity|reflexivity|reflexivity].
  - reflexivity.
Defined.

(** A question that the orchestrator answers. *)
Lemma query_passes_answer_witness :
  Demo.query (Some Demo.answering) "how many users?" None "result"
  = (Server.Returns
       (Server.PyDict [("success", Server.PyBool true);
                       ("generated_sql", Server.PyStr "SELECT 1")]),
     [("how many users?", None, Server.RESULT, Some "req-1")]).
Proof.
  apply (query_passes_answer Demo.QueryRequest Server.PyValue
           Demo.new_request (λ _, true) Demo.set_request_id Demo.to_dict
           Demo.request_context Demo.answering
           "how many users?" None "result" "req-1"
           ("how many users?", None, Server.RESULT, None)
           ("how many users?", None, Server.RESULT, Some "req-1")
           (Server.PyDict [("success", Server.PyBool true);
                           ("generated_sql", Server.PyStr "SELECT 1")])).
  - set_solver.
  - reflexivity.
  - reflexivity.
  - reflexivity.
  - reflexivity.
  - reflexivity.
Defined.

End ToolExamples.

Section PoolRegistry.

Context {U : PyStr.Unicode}.

Import Server.

Variable environ : gmap str str.
Variable int : str -> Outcome Z.
Variable Pool : Type.
Variable create_pool : DatabaseConfig -> Outcome Pool.

Local Abbreviation getenv_truthy := (getenv_truthy environ).
Local Abbreviation db1_config := (db1_config environ int).
Local Abbreviation db2_config := (db2_config environ int).
Local Abbreviation create_pools := (create_pools environ int Pool create_pool).

(** X12. The registry is keyed by database name. When two pools are
    created, the second is found under its name; the primary is found
    under its own name, and the registry has two entries, only when the
    two names differ: under equal names the second pool replaces the
    primary and the registry has one entry. *)
Theorem registry_keyed_by_name
    (pools : gmap str Pool) (db1 db2 : DatabaseConfig) :
  create_pools = Returns (pools, [db1; db2]) ->
  ∃ pool1 pool2,
    create_pool db1 = Returns pool1 ∧ create_pool db2 = Returns pool2
    ∧ pools !! name db2 = Some pool2
    ∧ (name db1 ≠ name db2 → pools !! name db1 = Some pool1 ∧ size pools = 2)
    ∧ (name db1 = name db2 → pools = {[name db2 := pool2]} ∧ size pools = 1).
Proof.
  unfold Server.create_pools.
  destruct db1_config as [db1'|e] eqn:Hdb1; simpl; [|done].
  destruct (create_pool db1') as [pool1|e] eqn:Hpool1; simpl; [|done].
  destruct (getenv_truthy "DATABASE2_NAME"); [|done].
  destruct db2_config as [db2'|e] eqn:Hdb2; simpl; [|done].
  destruct (create_pool db2') as [pool2|e] eqn:Hpool2; simpl; [|done].
  intros [= <- <- <-]. exists pool1, pool2. split_and!; try done.
  - apply lookup_insert_eq.
  - intros Hne. split.
    + rewrite lookup_insert_ne by done. apply lookup_insert_eq.
    + rewrite map_size_insert_None.
      * by rewrite insert_empty, map_size_singleton.
      * rewrite lookup_insert_ne by done. apply lookup_empty.
  - intros ->. rewrite insert_insert_eq, insert_empty.
    split; [done|]. apply map_size_singleton.
Qed.

(** X13. Ports and start-up. A primary port that [int] rejects makes the
    creation of the pools fail with the exception of [int]; so does,
    once the primary pool is created and DATABASE2_NAME is set and not
    empty, a DATABASE2_PORT that [int] rejects. An unset DATABASE2_PORT
    never adds a failure: the second configuration is built, with the
    port of the primary. *)
Theorem port_errors :
  (∀ e, int (getenv environ "DATABASE_PORT" "5432") = Raises e →
        create_pools = Raises e)
  ∧ (∀ db1 pool1 text e,
       db1_config = Returns db1 → create_pool db1 = Returns pool1 →
       getenv_truthy "DATABASE2_NAME" = true →
       environ !! "DATABASE2_PORT" = Some text → int text = Raises e →
       create_pools = Raises e)
  ∧ (∀ db1,
       db1_config = Returns db1 →
       environ !! "DATABASE2_PORT" = None →
       ∃ db2, db2_config = Returns db2 ∧ port db2 = port db1).
Proof.
  split_and!.
  - intros e He. unfold Server.create_pools, Server.db1_config.
    by rewrite He.
  - intros db1 pool1 text e Hdb1 Hpool1 Htruthy Htext He.
    unfold Server.create_pools. rewrite Hdb1. simpl. rewrite Hpool1. simpl.
    rewrite Htruthy. unfold Server.db2_config, getenv.
    rewrite Htext. simpl. by rewrite He.
  - intros db1. unfold Server.db1_config, Server.db2_config, getenv.
    intros Hdb1 Hnone. rewrite Hnone. simpl.
    destruct (int (default "5432" (environ !! "DATABASE_PORT")))
      as [p|e]; simpl in *; [|done].
    injection Hdb1 as <-. by eexists.
Qed.

End PoolRegistry.

Section PoolExamples.

#[local] Existing Instance Demo.unicode.

Import Server.

(** Two databases with different names: two entries. *)
Lemma registry_keyed_by_name_witness :
  ∃ pools db1 db2,
    Demo.create_pools {[ "DATABASE2_NAME" := "reports" ]}
    = Server.Returns (pools, [db1; db2])
    ∧ is_Some (pools !! "reports") ∧ size pools = 2.
Proof.
  set (environ := ({[ "DATABASE2_NAME" := "reports" ]} : gmap str str)).
  destruct (Demo.create_pools environ) as [[pools created]|e] eqn:Hrun;
    [|by vm_compute in Hrun].
  assert (∃ db1 db2, created = [db1; db2]
                     ∧ Server.name db1 = "postgres"
                     ∧ Server.name db2 = "reports")
    as (db1 & db2 & -> & Hname1 & Hname2).
  { vm_compute in Hrun. injection Hrun as _ <-. by eexists _, _. }
  destruct (registry_keyed_by_name environ Demo.int Server.DatabaseConfig
              Demo.create_pool pools db1 db2 Hrun)
    as (pool1 & pool2 & _ & _ & Hsecond & Hdiffer & _).
  exists pools, db1, db2. split_and!; [done| |].
  - rewrite <- Hname2. by eexists.
  - apply Hdiffer. congruence.
Defined.

(** A port that is not a number. *)
Lemma port_errors_witness :
  ∃ e, Demo.create_pools {[ "DATABASE_PORT" := "54x32" ]} = Raises e.
Proof.
  destruct (port_errors {[ "DATABASE_PORT" := "54x32" ]} Demo.int
              DatabaseConfig Demo.create_pool) as [H _].
  eexists. apply H. vm_compute. reflexivity.
Defined.

End PoolExamples.

(** * The life of the server *)
Section LifespanFacts.

Import Server Lifespan.

Context {U : PyStr.Unicode} `{W : World}.

Implicit Types (g : Globals) (s : Globals * list Event) (e : PyExn).

Lemma dict_get_set_eq {V} (k : str) (v : V) (d : list (str * V)) :
  dict_get k (dict_set k v d) = Some v.
Proof.
  unfold dict_get. induction d as [|[k' v'] d IH]; simpl.
  - by rewrite bool_decide_eq_true_2.
  - case_bool_decide as Hk; simpl.
    + by rewrite bool_decide_eq_true_2.
    + by rewrite bool_decide_eq_false_2.
Qed.

Lemma dict_get_set_ne {V} (k k' : str) (v : V) (d : list (str * V)) :
  k ≠ k' -> dict_get k' (dict_set k v d) = dict_get k' d.
Proof.
  intros Hne. unfold dict_get. induction d as [|[k0 v0] d IH]; simpl.
  - by rewrite bool_decide_eq_false_2.
  - case_bool_decide as Hk; simpl.
    + subst k0. by rewrite !bool_decide_eq_false_2.
    + case_bool_decide; [done|]. apply IH.
Qed.

(** The creation of the pools: the registry starts empty, each pool
    that is created is logged and stored under the name of its
    configuration. *)
Lemma create_pools_shape s :
  ∃ out registry created,
    create_pools s = (out, (set_pools registry s.1, s.2 ++ created))
    ∧ Forall is_created created
    ∧ (∀ config pool,
         CreatedPool config pool ∈ created →
         ∃ pool', dict_get (name config) registry = Some pool'
                  ∧ (getenv environ "DATABASE_NAME" "postgres"
                     ≠ default "" (environ !! "DATABASE2_NAME") →
                     pool' = pool)).
Proof.
  destruct s as [g evs].
  unfold create_pools, register_pool, bind, call, write, emit, ret. simpl.
  destruct (db1_config environ int) as [db1|e] eqn:Hdb1.
  2: { exists (Raises e), [], []. rewrite app_nil_r.
       split_and!; [done|constructor|]. by intros ?? ?%elem_of_nil. }
  assert (name db1 = getenv environ "DATABASE_NAME" "postgres") as Hn1.
  { unfold db1_config in Hdb1.
    destruct (int _); simpl in Hdb1; [|done]. by injection Hdb1 as <-. }
  destruct (create_pool db1) as [pool1|e].
  2: { exists (Raises e), [], []. rewrite app_nil_r.
       split_and!; [done|constructor|]. by intros ?? ?%elem_of_nil. }
  simpl. destruct (getenv_truthy environ "DATABASE2_NAME").
  - destruct (db2_config environ int) as [db2|e] eqn:Hdb2.
    2: { exists (Raises e), [(name db1, pool1)], [CreatedPool db1 pool1].
         split_and!; [done|repeat constructor; by eexists _, _|].
         intros ?? [= -> ->]%list_elem_of_singleton. exists pool1.
         split; [|done]. unfold dict_get. simpl.
         by rewrite bool_decide_eq_true_2. }
    assert (name db2 = default "" (environ !! "DATABASE2_NAME")) as Hn2.
    { unfold db2_config in Hdb2.
      destruct (int _); simpl in Hdb2; [|done]. by injection Hdb2 as <-. }
    destruct (create_pool db2) as [pool2|e].
    2: { exists (Raises e), [(name db1, pool1)], [CreatedPool db1 pool1].
         split_and!; [done|repeat constructor; by eexists _, _|].
         intros ?? [= -> ->]%list_elem_of_singleton. exists pool1.
         split; [|done]. unfold dict_get. simpl.
         by rewrite bool_decide_eq_true_2. }
    simpl.
    exists (Returns tt), (dict_set (name db2) pool2 [(name db1, pool1)]),
      [CreatedPool db1 pool1; CreatedPool db2 pool2].
    split_and!.
    + by rewrite <- app_assoc.
    + repeat constructor; by eexists _, _.
    + intros config pool
        [[= -> ->]|[= -> ->]%list_elem_of_singleton]%elem_of_cons.
      * destruct (decide (name db2 = name db1)) as [Heq|Hne].
        -- exists pool2. rewrite <- Heq, dict_get_set_eq.
           split; [done|]. intros Hdiff. congruence.
        -- exists pool1. rewrite dict_get_set_ne by done.
           split; [|done]. unfold dict_get. simpl.
           by rewrite bool_decide_eq_true_2.
      * exists pool2. by rewrite dict_get_set_eq.
  - exists (Returns tt), [(name db1, pool1)], [CreatedPool db1 pool1].
    split_and!; [done|repeat constructor; by eexists _, _|].
    intros ?? [= -> ->]%list_elem_of_singleton. exists pool1.
    split; [|done]. unfold dict_get. simpl.
    by rewrite bool_decide_eq_true_2.
Qed.

(** One step of a run of [startup] that is assumed in [H]. *)
Local Ltac run_step H :=
  match type of H with
  | context [create_pools ?s] =>
      let out := fresh "out" in
      let registry := fresh "registry" in
      let created := fresh "created" in
      let Hrun := fresh "Hrun" in
      let Hcreated := fresh "Hcreated" in
      let Hstored := fresh "Hstored" in
      destruct (create_pools_shape s)
        as (out & registry & created & Hrun & Hcreated & Hstored);
      rewrite Hrun in H; clear Hrun; destruct out as [[]|?]
  | context [match ?o with Returns _ => _ | Raises _ => _ end] =>
      destruct o eqn:?
  | context [if ?b then _ else _] => destruct b eqn:?
  end; simpl in H.

Local Ltac run H :=
  unfold startup, bind, call, write, emit, read, ret in H; simpl in H;
  repeat run_step H.

(** A start-up that raises leaves the orchestrator as it was. *)
Lemma startup_raises_orchestrator g e s1 :
  startup (g, []) = (Raises e, s1) -> _orchestrator s1.1 = _orchestrator g.
Proof. intros H. run H; by simplify_eq. Qed.

(** The pools that a start-up creates are in the registry it leaves. *)
Lemma startup_pools g out g1 evs1 :
  startup (g, []) = (out, (g1, evs1)) ->
  ∀ config pool,
    CreatedPool config pool ∈ evs1 →
    ∃ registry pool',
      _pools g1 = Some registry
      ∧ dict_get (name config) registry = Some pool'
      ∧ (getenv environ "DATABASE_NAME" "postgres"
         ≠ default "" (environ !! "DATABASE2_NAME") →
         pool' = pool).
Proof.
  intros H. run H; simplify_eq; simpl; intros config pool Hin;
    rewrite ?elem_of_app in Hin;
    repeat match goal with
      | Hin : _ ∨ _ |- _ => destruct Hin as [Hin|Hin]
      | Hin : _ ∈ [] |- _ => by apply elem_of_nil in Hin
      | Hin : _ ∈ [_] |- _ => by apply list_elem_of_singleton in Hin
      end;
    match goal with
    | Hstored : ∀ c p, CreatedPool c p ∈ _ → _ |- _ =>
        destruct (Hstored config pool Hin) as (pool' & ? & ?); eauto
    end.
Qed.

(** The [except] clause leaves the state alone and raises: the
    exception in flight or, in its place, one that is not an
    [Exception]. *)
Lemma on_exception_run e s :
  ∃ e' extra,
    on_exception e s = (Raises e', (s.1, s.2 ++ extra))
    ∧ (e' = e ∨ is_Exception e' = false)
    ∧ ∀ ev, ev ∈ extra → ∃ detail, ev = WroteFatalError detail.
Proof.
  destruct s as [g evs].
  unfold on_exception, bind, call, emit. simpl.
  destruct (is_Exception e) eqn:He.
  - destruct (write_fatal_error (error_detail e)) as [[]|w]; simpl.
    + exists e, [WroteFatalError (error_detail e)]. split_and!; [done|by left|].
      intros ev ->%list_elem_of_singleton. by eexists.
    + destruct (is_Exception w) eqn:Hw.
      * exists e, []. rewrite app_nil_r. split_and!; [done|by left|].
        by intros ev ?%elem_of_nil.
      * exists w, []. rewrite app_nil_r. split_and!; [done|by right|].
        by intros ev ?%elem_of_nil.
  - exists e, []. rewrite app_nil_r. split_and!; [done|by left|].
    by intros ev ?%elem_of_nil.
Qed.

(** The [finally] clause leaves the state alone; it hands the registry
    to [close_pools] unless stopping the refresh raises something that is
    not an [Exception]; it creates no pool. *)
Lemma shutdown_run s :
  ∃ out extra,
    shutdown s = (out, (s.1, s.2 ++ extra))
    ∧ (∀ ev, ev ∈ extra → ¬ is_created ev)
    ∧ (∀ registry, ClosedPools registry ∈ extra → _pools s.1 = Some registry)
    ∧ ((∀ cache e, stop_auto_refresh cache = Raises e → is_Exception e = true) →
       ∀ registry, _pools s.1 = Some registry → ClosedPools registry ∈ extra).
Proof.
  destruct s as [g evs].
  unfold shutdown, bind, call, emit, read, ret, swallow. simpl.
  destruct (_schema_cache g) as [cache|]; simpl.
  - destruct (stop_auto_refresh cache) as [[]|e] eqn:Hstop; simpl.
    + destruct (_pools g) as [registry|]; simpl.
      * eexists _, [StoppedAutoRefresh cache; ClosedPools registry].
        split_and!.
        -- by rewrite <- !app_assoc.
        -- intros ev Hin (c & p & ->). set_solver.
        -- intros r Hin. set_solver.
        -- intros _ r [= ->]. set_solver.
      * eexists _, [StoppedAutoRefresh cache]. split_and!; [done| | |done].
        -- intros ev Hin (c & p & ->). set_solver.
        -- intros r Hin. set_solver.
    + destruct (is_Exception e) eqn:He; simpl.
      * destruct (_pools g) as [registry|]; simpl.
        -- eexists _, [StoppedAutoRefresh cache; ClosedPools registry].
           split_and!.
           ++ by rewrite <- !app_assoc.
           ++ intros ev Hin (c & p & ->). set_solver.
           ++ intros r Hin. set_solver.
           ++ intros _ r [= ->]. set_solver.
        -- eexists _, [StoppedAutoRefresh cache]. split_and!; [done| | |done].
           ++ intros ev Hin (c & p & ->). set_solver.
           ++ intros r Hin. set_solver.
      * eexists _, [StoppedAutoRefresh cache]. split_and!; [done| | |].
        -- intros ev Hin (c & p & ->). set_solver.
        -- intros r Hin. set_solver.
        -- intros Hexn. specialize (Hexn _ _ Hstop). congruence.
  - destruct (_pools g) as [registry|]; simpl.
    + eexists _, [ClosedPools registry]. split_and!; [done| | |].
      * intros ev Hin (c & p & ->). set_solver.
      * intros r Hin. set_solver.
      * intros _ r [= ->]. set_solver.
    + eexists _, []. rewrite app_nil_r. split_and!; [done| | |done].
      * by intros ev ?%elem_of_nil.
      * by intros r ?%elem_of_nil.
Qed.

Lemma shutdown_raises s w :
  (shutdown s).1 = Raises w -> is_Exception w = false.
Proof.
  destruct s as [g evs].
  unfold shutdown, bind, call, emit, read, ret, swallow. simpl.
  destruct (_schema_cache g) as [cache|]; simpl;
    [destruct (stop_auto_refresh cache) as [[]|e]; simpl;
       [|destruct (is_Exception e) eqn:He; simpl; [|by intros [= <-]]]|];
    (destruct (_pools g) as [registry|]; simpl; [|done]);
    (destruct (close_pools registry) as [[]|e']; simpl; [done|]);
    (destruct (is_Exception e') eqn:He'; simpl; [done|by intros [= <-]]).
Qed.

(** [lifespan] once the handler of the emergency log is open. *)
Lemma lifespan_run g :
  emergency_handler = Returns tt ->
  ∃ out g1 evs1 handled extra1 final extra2,
    startup (g, []) = (out, (g1, evs1))
    ∧ match out with
      | Returns _ => handled = serve ∧ extra1 = []
                     ∨ (∃ e, serve = Raises e
                             ∧ on_exception e (g1, evs1)
                               = (handled, (g1, evs1 ++ extra1)))
      | Raises e =>
          on_exception e (g1, evs1) = (handled, (g1, evs1 ++ extra1))
      end
    ∧ (∀ ev, ev ∈ extra1 → ∃ detail, ev = WroteFatalError detail)
    ∧ shutdown (g1, evs1 ++ extra1) = (final, (g1, (evs1 ++ extra1) ++ extra2))
    ∧ lifespan g
      = (match final with Returns _ => handled | Raises w => Raises w end,
         (g1, (evs1 ++ extra1) ++ extra2)).
Proof.
  intros Hopen. unfold lifespan. rewrite Hopen.
  unfold bind at 1. unfold call at 1.
  destruct (startup (g, [])) as [[[]|e] [g1 evs1]] eqn:Hstart.
  - destruct serve as [[]|e] eqn:Hserve.
    + destruct (shutdown_run (g1, evs1)) as (final & extra2 & Hfin & _).
      simpl in Hfin. rewrite Hfin.
      exists (Returns tt), g1, evs1, (Returns tt), [], final, extra2.
      rewrite app_nil_r. split_and!; try done.
      * by left.
      * by intros ev ?%elem_of_nil.
      * by destruct final.
    + destruct (on_exception_run e (g1, evs1))
        as (e' & extra1 & Hexc & _ & Hwrote).
      simpl in Hexc. rewrite Hexc.
      destruct (shutdown_run (g1, evs1 ++ extra1))
        as (final & extra2 & Hfin & _).
      simpl in Hfin. rewrite Hfin.
      exists (Returns tt), g1, evs1, (Raises e'), extra1, final, extra2.
      split_and!; try done.
      * right. by exists e.
      * by destruct final.
  - destruct (on_exception_run e (g1, evs1))
      as (e' & extra1 & Hexc & _ & Hwrote).
    simpl in Hexc. rewrite Hexc.
    destruct (shutdown_run (g1, evs1 ++ extra1))
      as (final & extra2 & Hfin & _).
    simpl in Hfin. rewrite Hfin.
    exists (Raises e), g1, evs1, (Raises e'), extra1, final, extra2.
    split_and!; try done. by destruct final.
Qed.


(** X15. No pool is left open. Once the handler of the emergency log is
    open, and provided stopping the schema refresh raises nothing but
    [Exception]s and the two database names differ, every pool that
    [lifespan] creates is in the registry that it hands to [close_pools]
    in its [finally] clause, under the name of its configuration:
    whether the start-up succeeds, fails half-way or the serving
    raises. *)
Theorem created_pools_closed g :
  emergency_handler = Returns tt ->
  (∀ cache e, stop_auto_refresh cache = Raises e → is_Exception e = true) ->
  getenv environ "DATABASE_NAME" "postgres"
    ≠ default "" (environ !! "DATABASE2_NAME") ->
  ∀ config pool,
    CreatedPool config pool ∈ (lifespan g).2.2 →
    ∃ registry,
      ClosedPools registry ∈ (lifespan g).2.2
      ∧ dict_get (name config) registry = Some pool.
Proof.
  intros Hopen Hstop Hnames config pool.
  destruct (lifespan_run g Hopen)
    as (out & g1 & evs1 & handled & extra1 & final & extra2
        & Hstart & _ & Hwrote & Hfin & ->).
  simpl. rewrite !elem_of_app.
  destruct (shutdown_run (g1, evs1 ++ extra1))
    as (final' & extra2' & Hfin' & Hquiet & _ & Hclosed).
  rewrite Hfin in Hfin'. injection Hfin' as _ Hextra.
  apply app_inv_head in Hextra. subst extra2'.
  intros [[Hin|Hin]|Hin].
  - destruct (startup_pools _ _ _ _ Hstart config pool Hin)
      as (registry & pool' & Hreg & Hget & Hsame).
    exists registry. split.
    + apply elem_of_app. right. by apply Hclosed.
    + rewrite Hget. f_equal. by apply Hsame.
  - by destruct (Hwrote _ Hin).
  - destruct (Hquiet _ Hin). by eexists _, _.
Qed.

Lemma create_pools_same_name s db1 db2 pool1 pool2 :
  db1_config environ int = Returns db1 -> create_pool db1 = Returns pool1 ->
  getenv_truthy environ "DATABASE2_NAME" = true ->
  db2_config environ int = Returns db2 -> create_pool db2 = Returns pool2 ->
  name db1 = name db2 ->
  create_pools s
  = (Returns tt,
     (set_pools [(name db2, pool2)] s.1,
      s.2 ++ [CreatedPool db1 pool1; CreatedPool db2 pool2])).
Proof.
  intros Hdb1 Hpool1 Htruthy Hdb2 Hpool2 Hname. destruct s as [g evs].
  unfold create_pools, register_pool, bind, call, write, emit, ret. simpl.
  rewrite Hdb1, Hpool1. simpl. rewrite Htruthy, Hdb2, Hpool2. simpl.
  rewrite Hname, bool_decide_eq_true_2 by done. by rewrite <- app_assoc.
Qed.

(** X16. A pool that is never closed. When DATABASE2_NAME names the
    primary database again, both pools are created, the second takes the
    place of the first in the registry, and the registry that the
    [finally] clause hands to [close_pools] holds the second pool only:
    the primary pool is not closed. *)
Theorem same_name_pool_not_closed g settings db1 db2 pool1 pool2 :
  emergency_handler = Returns tt ->
  load_settings = Returns settings ->
  configure_logging settings = Returns tt ->
  debug_handler = Returns tt ->
  db1_config environ int = Returns db1 -> create_pool db1 = Returns pool1 ->
  getenv_truthy environ "DATABASE2_NAME" = true ->
  db2_config environ int = Returns db2 -> create_pool db2 = Returns pool2 ->
  name db1 = name db2 ->
  CreatedPool db1 pool1 ∈ (lifespan g).2.2
  ∧ CreatedPool db2 pool2 ∈ (lifespan g).2.2
  ∧ ∀ registry,
      ClosedPools registry ∈ (lifespan g).2.2 →
      registry = [(name db2, pool2)].
Proof.
  intros Hopen Hload Hconf Hdebug Hdb1 Hpool1 Htruthy Hdb2 Hpool2 Hname.
  destruct (lifespan_run g Hopen)
    as (out & g1 & evs1 & handled & extra1 & final & extra2
        & Hstart & _ & Hwrote & Hfin & ->).
  assert (∃ extra,
            evs1 = [CreatedPool db1 pool1; CreatedPool db2 pool2] ++ extra
            ∧ _pools g1 = Some [(name db2, pool2)]
            ∧ ∀ registry, ClosedPools registry ∉ extra)
    as (extra & -> & Hreg & Hnone).
  { clear Hfin. unfold startup in Hstart.
    unfold bind at 1 2 3 4 5 in Hstart.
    unfold call at 1 2 3, write at 1 in Hstart.
    rewrite Hload in Hstart. simpl in Hstart.
    rewrite Hconf, Hdebug in Hstart.
    rewrite (create_pools_same_name _ _ _ _ _
               Hdb1 Hpool1 Htruthy Hdb2 Hpool2 Hname) in Hstart.
    unfold bind, call, write, emit, read, ret in Hstart; simpl in Hstart.
    repeat run_step Hstart; simplify_eq; simpl;
      eexists; (split; [reflexivity|]); (split; [done|]);
      intros registry Hin; set_solver. }
  destruct (shutdown_run (g1, ([CreatedPool db1 pool1; CreatedPool db2 pool2]
                               ++ extra) ++ extra1))
    as (final' & extra2' & Hfin' & _ & Hclosed & _).
  rewrite Hfin in Hfin'. injection Hfin' as _ Hextra.
  apply app_inv_head in Hextra. subst extra2'.
  simpl. split_and!.
  - set_solver.
  - set_solver.
  - intros registry. rewrite !elem_of_cons, !elem_of_app.
    intros [?|[?|[[Hin|Hin]|Hin]]]; try done.
    + by destruct (Hnone registry).
    + by destruct (Hwrote _ Hin).
    + apply Hclosed in Hin. simpl in Hin. congruence.
Qed.

Lemma create_executors_keys settings metrics items executors :
  create_executors settings metrics items = Returns executors ->
  executors.*1 = items.*1.
Proof.
  revert executors. induction items as [|[db_name pool] rest IH];
    intros executors; simpl.
  - by intros [= <-].
  - destruct (new_sql_executor pool settings metrics) as [executor|e];
      simpl; [|done].
    destruct (create_executors settings metrics rest) as [others|e];
      simpl; [|done].
    intros [= <-]. simpl. f_equal. by apply IH.
Qed.

(** X17. A start-up that succeeds. Every global is set; the registry of
    pools is the one the pool step built; the orchestrator stored in
    [_orchestrator] is the one [QueryOrchestrator] returned for a
    validator built from [settings.security] (its deny-lists and its
    EXPLAIN policy), one executor for each registered database, in the
    order of the registry, the registry itself and limits of 10 queries
    and 5 model calls; the metrics server is started exactly when
    [metrics_enabled] is set, on [metrics_port]. *)
Theorem startup_wiring g g1 evs1 :
  startup (g, []) = (Returns tt, (g1, evs1)) ->
  ∃ settings registry cache metrics breaker limiter orchestrator
    generator executors result_validator,
    _settings g1 = Some settings ∧ load_settings = Returns settings
    ∧ _pools g1 = Some registry
    ∧ _schema_cache g1 = Some cache
    ∧ _metrics g1 = Some metrics
    ∧ _circuit_breaker g1 = Some breaker
    ∧ _rate_limiter g1 = Some limiter
    ∧ new_rate_limiter 10 5 = Returns limiter
    ∧ _orchestrator g1 = Some orchestrator
    ∧ create_executors settings metrics registry = Returns executors
    ∧ executors.*1 = registry.*1
    ∧ new_orchestrator generator
        (SQLValidator.init (security settings)
           (Some (cfg_blocked_tables (security settings)))
           (Some (cfg_blocked_columns (security settings)))
           (cfg_explain_policy (security settings)))
        executors result_validator cache registry settings limiter metrics
      = Returns orchestrator
    ∧ (∀ port, StartedMetricsServer port ∈ evs1
               ↔ metrics_enabled settings = true
                 ∧ port = metrics_port settings).
Proof.
  intros H. run H; simplify_eq; simpl;
    eexists _, _, _, _, _, _, _, _, _, _;
    (split_and!; try done; try eassumption;
     [by eapply create_executors_keys|]);
    intros port; rewrite ?elem_of_app;
    match goal with
    | Hcreated : Forall is_created _ |- _ =>
        rewrite Forall_forall in Hcreated
    end.
  all: split;
    [intros Hin;
     try match type of Hin with
         | _ ∨ _ =>
             destruct Hin as [Hin|Hin%list_elem_of_singleton];
             [|by simplify_eq]
         end;
     exfalso;
     match goal with
     | Hcreated : ∀ x, _ → is_created x |- _ =>
         by destruct (Hcreated _ Hin) as (? & ? & ?)
     end
    |intros [Hen ->];
     first [congruence | right; by apply list_elem_of_singleton]].
Qed.

End LifespanFacts.

Section LifespanExamples.

#[local] Existing Instance Demo.unicode.

Import Server.


(** Two databases, a server that runs and stops: both pools are in the
    registry that is closed. *)
Lemma created_pools_closed_witness :
  let W := Fixtures.world {[ "DATABASE2_NAME" := "reports" ]} ""
             (Returns tt) in
  ∃ config pool registry,
    name config = "reports"
    ∧ Lifespan.CreatedPool config pool ∈ (Lifespan.lifespan Lifespan.fresh).2.2
    ∧ Lifespan.ClosedPools registry ∈ (Lifespan.lifespan Lifespan.fresh).2.2
    ∧ Lifespan.dict_get "reports" registry = Some pool.
Proof.
  intros W.
  destruct (db2_config Lifespan.environ Lifespan.int)
    as [db2|e] eqn:Hdb2; [|by vm_compute in Hdb2].
  assert (name db2 = "reports") as Hname
    by (vm_compute in Hdb2; by injection Hdb2 as <-).
  assert (Lifespan.CreatedPool db2 db2
          ∈ (Lifespan.lifespan Lifespan.fresh).2.2) as Hin.
  { vm_compute in Hdb2. injection Hdb2 as <-.
    vm_compute. apply list_elem_of_further, list_elem_of_here. }
  destruct (created_pools_closed (W := W) Lifespan.fresh eq_refl)
    with (config := db2) (pool := db2) as (registry & Hclosed & Hget).
  - by intros cache e [=].
  - by vm_compute.
  - exact Hin.
  - exists db2, db2, registry. by rewrite <- Hname.
Defined.

(** DATABASE2_NAME names the primary database again. *)
Lemma same_name_pool_not_closed_witness :
  let W := Fixtures.world {[ "DATABASE2_NAME" := "postgres";
                             "DATABASE2_HOST" := "replica" ]} ""
             (Returns tt) in
  ∃ db1 db2,
    host db1 = "localhost" ∧ host db2 = "replica"
    ∧ Lifespan.CreatedPool db1 db1 ∈ (Lifespan.lifespan Lifespan.fresh).2.2
    ∧ ∀ registry,
        Lifespan.ClosedPools registry ∈ (Lifespan.lifespan Lifespan.fresh).2.2 →
        registry = [("postgres", db2)].
Proof.
  intros W.
  destruct (db1_config Lifespan.environ Lifespan.int)
    as [db1|e] eqn:Hdb1; [|by vm_compute in Hdb1].
  destruct (db2_config Lifespan.environ Lifespan.int)
    as [db2|e] eqn:Hdb2; [|by vm_compute in Hdb2].
  assert (host db1 = "localhost" ∧ name db1 = "postgres") as [Hhost1 Hname1]
    by (vm_compute in Hdb1; by injection Hdb1 as <-).
  assert (host db2 = "replica" ∧ name db2 = "postgres") as [Hhost2 Hname2]
    by (vm_compute in Hdb2; by injection Hdb2 as <-).
  assert (Lifespan.create_pool db1 = Returns db1) as Hpool1.
  { unfold Lifespan.create_pool, W, Fixtures.world, Fixtures.create_pool_unless.
    by rewrite Hname1. }
  assert (Lifespan.create_pool db2 = Returns db2) as Hpool2.
  { unfold Lifespan.create_pool, W, Fixtures.world, Fixtures.create_pool_unless.
    by rewrite Hname2. }
  assert (name db1 = name db2) as Hname by congruence.
  destruct (same_name_pool_not_closed (W := W) Lifespan.fresh
              Demo.security db1 db2 db1 db2
              eq_refl eq_refl eq_refl eq_refl
              Hdb1 Hpool1 eq_refl Hdb2 Hpool2 Hname)
    as (Hfirst & _ & Honly).
  exists db1, db2. split_and!; try done. by rewrite <- Hname2.
Defined.

(** A start-up in which everything answers. *)
Lemma startup_wiring_witness :
  let W := Fixtures.world {[ "DATABASE2_NAME" := "reports" ]} ""
             (Returns tt) in
  ∃ g1 evs1,
    Lifespan.startup (Lifespan.fresh, []) = (Returns tt, (g1, evs1))
    ∧ is_Some (Lifespan._orchestrator g1)
    ∧ Lifespan._rate_limiter g1 = Some (10, 5)%Z
    ∧ Lifespan.StartedMetricsServer 9090 ∈ evs1.
Proof.
  intros W.
  destruct (Lifespan.startup (Lifespan.fresh, []))
    as [[[]|e] [g1 evs1]] eqn:Hstart; [|by vm_compute in Hstart].
  destruct (startup_wiring (W := W) Lifespan.fresh g1 evs1 Hstart)
    as (settings & registry & cache & metrics & breaker & limiter
        & orchestrator & generator & executors & result_validator
        & Hsettings & Hload & _ & _ & _ & _ & Hlimiter & Hnew & Horch
        & _ & _ & _ & Hserver).
  exists g1, evs1. split_and!.
  - done.
  - by eexists.
  - rewrite Hlimiter. by injection Hnew as <-.
  - apply Hserver. by injection Hload as <-.
Defined.

End LifespanExamples.

(** * The entry point *)
Section MainFacts.

Import Server Main.

Variable Logger : Type.
Variable setup_emergency_logging : Outcome Logger.
Variable run_server : Outcome unit.
Variable format_exc : PyExn -> str.
Variable write_error_log : str -> Outcome unit.

Local Abbreviation error_msg := (error_msg format_exc).
Local Abbreviation main :=
  (main Logger setup_emergency_logging run_server format_exc write_error_log).

(** X18. How [main] ends. It returns exactly when the set-up of the
    logging and the server both returned, and then prints nothing. When
    one of them raises an [Exception], the message "Fatal error during
    server startup: ..." is printed on the standard error, it is logged
    exactly when the logger had been set up, and [main] leaves through
    [sys.exit(1)] whether or not the error log could be written (unless
    that write raises something that is not an [Exception]). No other
    exit code is used. *)
Theorem main_exit :
  (main.1 = Returned
   ↔ ∃ logger, setup_emergency_logging = Returns logger
               ∧ run_server = Returns tt)
  ∧ (main.1 = Returned → main.2 = [])
  ∧ (∀ e,
       setup_emergency_logging = Raises e
       ∨ (∃ logger, setup_emergency_logging = Returns logger
                    ∧ run_server = Raises e) →
       is_Exception e = true →
       PrintedStderr (error_msg e) ∈ main.2
       ∧ (LoggedError (error_msg e) ∈ main.2
          ↔ ∃ logger, setup_emergency_logging = Returns logger)
       ∧ ((∀ w, write_error_log (error_msg e) = Raises w →
                is_Exception w = true) →
          main.1 = SystemExit 1))
  ∧ (∀ code, main.1 = SystemExit code → code = 1%Z).
Proof.
  assert (∀ logger e, (on_exception Logger format_exc write_error_log logger e).1
                      ≠ Returned) as Hnot.
  { intros logger e. unfold on_exception.
    destruct (is_Exception e); [|done].
    destruct (write_error_log _) as [[]|w]; [done|].
    by destruct (is_Exception w). }
  assert (∀ logger e code,
            (on_exception Logger format_exc write_error_log logger e).1
            = SystemExit code → code = 1%Z) as Hcode.
  { intros logger e code. unfold on_exception.
    destruct (is_Exception e); [|done].
    destruct (write_error_log _) as [[]|w]; [by intros [= <-]|].
    destruct (is_Exception w); [by intros [= <-]|done]. }
  assert (∀ logger e,
            is_Exception e = true →
            let r := on_exception Logger format_exc write_error_log logger e in
            PrintedStderr (error_msg e) ∈ r.2
            ∧ (LoggedError (error_msg e) ∈ r.2 ↔ is_Some logger)
            ∧ ((∀ w, write_error_log (error_msg e) = Raises w →
                     is_Exception w = true) →
               r.1 = SystemExit 1)) as Hraised.
  { intros logger e He r. subst r. unfold on_exception. rewrite He.
    split_and!.
    - destruct (write_error_log _) as [[]|w]; [|destruct (is_Exception w)];
        destruct logger; simpl;
        repeat first [apply list_elem_of_here | apply list_elem_of_further].
    - split.
      + intros Hin. destruct logger; [by eexists|exfalso].
        destruct (write_error_log _) as [[]|w]; [|destruct (is_Exception w)];
          simpl in Hin;
          repeat match type of Hin with
                 | _ ∈ _ :: _ => apply elem_of_cons in Hin as [Hin|Hin]
                 | _ ∈ [] => by apply elem_of_nil in Hin
                 | _ = _ => discriminate Hin
                 end.
      + intros [l ->].
        destruct (write_error_log _) as [[]|w]; [|destruct (is_Exception w)];
          simpl; apply list_elem_of_here.
    - intros Hwrite.
      destruct (write_error_log _) as [[]|w] eqn:Hw; [done|].
      by rewrite (Hwrite w eq_refl). }
  unfold Main.main.
  destruct setup_emergency_logging as [logger|e0] eqn:Hsetup.
  - destruct run_server as [[]|e0] eqn:Hrun.
    + simpl. split_and!; try done.
      * split; [intros _; by exists logger|done].
      * intros e [[=]|(l & _ & [=])].
    + split_and!.
      * split; [by intros ?%Hnot|by intros (l & _ & [=])].
      * by intros ?%Hnot.
      * intros e [[=]|(l & _ & [= <-])] He.
        destruct (Hraised (Some logger) e0 He) as (Hp & Hl & Hx).
        split_and!; [done| |done].
        rewrite Hl. split; [intros _; by exists logger|by eexists].
      * apply Hcode.
  - split_and!.
    + split; [by intros ?%Hnot|by intros (l & [=] & _)].
    + by intros ?%Hnot.
    + intros e [[= <-]|(l & [=] & _)] He.
      destruct (Hraised None e0 He) as (Hp & Hl & Hx).
      split_and!; [done| |done].
      rewrite Hl. split; [by intros [? [=]]|by intros [? [=]]].
    + apply Hcode.
Qed.

End MainFacts.

Section MainExamples.

Import Server.

(** The server fails, and the error log cannot be written: the message
    is logged and printed, and the exit code is 1. *)
Lemma main_exit_witness :
  let boom := {| is_Exception := true; exn_text := "boom" |} in
  (Fixtures.main (Raises boom)).1 = Main.SystemExit 1
  ∧ (Fixtures.main (Raises boom)).2
    = [Main.LoggedError (Main.error_msg (λ _, "Traceback") boom);
       Main.PrintedStderr (Main.error_msg (λ _, "Traceback") boom)].
Proof.
  intros boom.
  destruct (main_exit unit (Returns tt) (Raises boom) (λ _, "Traceback")
              (λ _, Raises {| is_Exception := true;
                              exn_text := "read-only file system" |}))
    as (_ & _ & H & _).
  destruct (H boom) as (_ & _ & Hexit).
  - right. by exists tt.
  - reflexivity.
  - split; [|reflexivity]. apply Hexit. by intros w [= <-].
Defined.

End MainExamples.
